(** * TrafficAnalyzer: a shallow embedding of [traffic_analyzer/TrafficAnalyzer.py]

    The analyzer keeps one lazy Polars frame [lf] (absent until a source has
    been added) and answers four queries over it: [total], [per_day], [top_k]
    and [min_window_sum].  Every query is a Polars pipeline wrapped in
    [try: ... except Exception: return <default>].

    The embedding follows the source operation by operation.  The Polars
    operations the source calls are modelled with the behaviour of the engine
    for the column types the source declares:
    - [dt] is [pl.Datetime]: a nullable signed 64-bit number of microseconds
      since 1970-01-01T00:00:00;
    - [count] is [pl.Int64]: a nullable signed 64-bit integer, whose sums and
      additions wrap around;
    - [sort] is called without [maintain_order=True], so the order it leaves
      among rows with equal keys is a choice of the engine ([Engine] below);
    - [head(k)] hands [k] to the engine as a row index of the engine's
      width, and raises when [k] is no such index;
    - a [LazyFrame] reads nothing until a query collects it.

    What the CSV reader makes of the text of a file is decided inside the
    library; a source is taken here with the rows reading it gives. *)

From Stdlib Require Import ZArith List Bool Lia Permutation Sorted.
From Stdlib Require Import Ascii String OrderedTypeEx.
Import ListNotations.

Local Open Scope Z_scope.

(** * Part I: the program *)

(** ** Signed 64-bit arithmetic of the [pl.Int64] and [pl.Datetime] columns *)

Module Int64.

Definition modulus : Z := 2 ^ 64.
Definition min_int : Z := - 2 ^ 63.
Definition max_int : Z := 2 ^ 63 - 1.

(** The value an unchecked 64-bit operation leaves for the exact result [z]. *)
Definition wrap (z : Z) : Z := (z + 2 ^ 63) mod modulus - 2 ^ 63.

Definition in_range (z : Z) : Prop := min_int <= z <= max_int.

Definition add (x y : Z) : Z := wrap (x + y).
Definition sub (x y : Z) : Z := wrap (x - y).

End Int64.

(** ** Exceptions

    A computation either returns a value or raises.  The queries never look at
    the exception they catch (they only log it), so [Raise] carries nothing. *)

Inductive exc (A : Type) : Type :=
| Return (a : A)
| Raise.

Arguments Return {A} a.
Arguments Raise {A}.

Definition bind {A B : Type} (m : exc A) (k : A -> exc B) : exc B :=
  match m with
  | Return a => k a
  | Raise => Raise
  end.

Notation "x <- m ;; k" := (bind m (fun x => k))
  (at level 61, m at next level, right associativity).

(** [try: body / except Exception: return default] *)
Definition try_except {A : Type} (body : exc A) (default : A) : exc A :=
  match body with
  | Return a => Return a
  | Raise => Return default
  end.

(** ** Sorting

    [stable_sort] is an insertion sort; a row goes in front of the first row
    it does not exceed, so rows with equal keys keep their incoming order. *)

Section StableSort.

Context {A : Type}.
Variable le : A -> A -> bool.

Fixpoint insert (x : A) (l : list A) : list A :=
  match l with
  | [] => [x]
  | y :: l' => if le x y then x :: l else y :: insert x l'
  end.

Fixpoint stable_sort (l : list A) : list A :=
  match l with
  | [] => []
  | x :: l' => insert x (stable_sort l')
  end.

End StableSort.

(** ** What the source leaves to the engine

    [LazyFrame.sort(..)] with the default [maintain_order=False] promises a
    sorted frame and nothing about the relative order of rows with equal
    keys.  An [Engine] fixes that freedom: it presents the rows to the sort
    in an arrangement of its choice, and the sort proper keeps equal keys as
    arranged.  A sorted arrangement is returned as it is, so every sorted
    permutation of a frame is a possible outcome.

    The engine also fixes the width of its row index ([IdxSize]): 32 bits in
    the standard build of Polars, 64 bits in the build for large frames.  A
    slice length is handed to the engine as a value of that type. *)

Inductive IdxSize : Type :=
| UInt32
| UInt64.

Record Engine : Type := {
  arrange : forall A : Type, list A -> list A;
  arrange_perm : forall (A : Type) (l : list A), Permutation (arrange A l) l;
  idx_size : IdxSize
}.

(** The largest value of the engine's row index. *)
Definition idx_max (e : Engine) : Z :=
  match idx_size e with
  | UInt32 => 2 ^ 32 - 1
  | UInt64 => 2 ^ 64 - 1
  end.

Definition sort (e : Engine) {A : Type} (le : A -> A -> bool) (l : list A) : list A :=
  stable_sort le (arrange e A l).

(** The engine that keeps equal keys in their incoming order. *)
Definition order_keeping : Engine :=
  {| arrange := fun _ l => l;
     arrange_perm := fun _ l => Permutation_refl l;
     idx_size := UInt32 |}.

(** An engine that hands equal keys back in the opposite order. *)
Definition order_reversing : Engine :=
  {| arrange := fun _ l => rev l;
     arrange_perm := fun _ l => Permutation_sym (Permutation_rev l);
     idx_size := UInt32 |}.

(** Nulls come first ([nulls_last=False] is the default of [sort]). *)
Definition nulls_first {K : Type} (le : K -> K -> bool) (a b : option K) : bool :=
  match a, b with
  | None, _ => true
  | Some _, None => false
  | Some x, Some y => le x y
  end.

(** ** Calendar: [strftime] and [isoformat] of a microsecond timestamp *)

Module Calendar.

Definition us_per_second : Z := 1000000.
Definition us_per_day : Z := 86400 * us_per_second.

(** [timedelta(minutes=30)] as a microsecond duration. *)
Definition half_hour : Z := 30 * 60 * us_per_second.

(** Year, month and day of the day number [z] (days since 1970-01-01) in the
    proleptic Gregorian calendar. *)
Definition civil_from_days (z : Z) : Z * Z * Z :=
  let z := z + 719468 in
  let era := z / 146097 in
  let doe := z - era * 146097 in
  let yoe := (doe - doe / 1460 + doe / 36524 - doe / 146096) / 365 in
  let y := yoe + era * 400 in
  let doy := doe - (365 * yoe + yoe / 4 - yoe / 100) in
  let mp := (5 * doy + 2) / 153 in
  let d := doy - (153 * mp + 2) / 5 + 1 in
  let m := if mp <? 10 then mp + 3 else mp - 9 in
  (if m <=? 2 then y + 1 else y, m, d).

Definition days_from_civil (y m d : Z) : Z :=
  let y := if m <=? 2 then y - 1 else y in
  let era := y / 400 in
  let yoe := y - era * 400 in
  let doy := (153 * (if 2 <? m then m - 3 else m + 9) + 2) / 5 + d - 1 in
  let doe := yoe * 365 + yoe / 4 - yoe / 100 + doy in
  era * 146097 + doe - 719468.

Definition digit (d : Z) : ascii := ascii_of_N (48 + Z.to_N (d mod 10)).

Definition pad2 (n : Z) (rest : string) : string :=
  String (digit (n / 10)) (String (digit n) rest).

Definition pad4 (n : Z) (rest : string) : string :=
  String (digit (n / 1000)) (String (digit (n / 100)) (pad2 n rest)).

Definition pad6 (n : Z) (rest : string) : string :=
  String (digit (n / 100000)) (String (digit (n / 10000)) (pad4 n rest)).

(** The calendar date of a timestamp: the timestamp truncated to its day. *)
Definition day_of (t : Z) : Z := t / us_per_day.

(** ["%Y-%m-%d"], for the years 0000 to 9999 of the input format. *)
Definition date_text (day : Z) (rest : string) : string :=
  let '(y, m, d) := civil_from_days day in
  pad4 y (String "-" (pad2 m (String "-" (pad2 d rest)))).

Definition strftime_date (t : Z) : string := date_text (day_of t) EmptyString.

(** ["%H:%M:%S"] of the time of day. *)
Definition time_text (t : Z) (rest : string) : string :=
  let s := (t mod us_per_day) / us_per_second in
  pad2 (s / 3600) (String ":" (pad2 (s / 60 mod 60) (String ":" (pad2 (s mod 60) rest)))).

(** ["%Y-%m-%dT%H:%M:%S"] *)
Definition strftime_datetime (t : Z) : string :=
  date_text (day_of t) (String "T" (time_text t EmptyString)).

(** Python's [datetime.isoformat()]: the fraction is printed when it is not
    zero. *)
Definition isoformat (t : Z) : string :=
  let us := t mod us_per_second in
  date_text (day_of t)
    (String "T" (time_text t (if us =? 0 then EmptyString else String "." (pad6 us EmptyString)))).

(** The timestamps a Python [datetime] can hold: 0001-01-01T00:00:00 to
    9999-12-31T23:59:59.999999. *)
Definition min_datetime : Z := days_from_civil 1 1 1 * us_per_day.
Definition max_datetime : Z := (days_from_civil 9999 12 31 + 1) * us_per_day - 1.

Definition in_datetime_range (t : Z) : Prop := min_datetime <= t <= max_datetime.

Definition in_datetime_rangeb (t : Z) : bool :=
  (min_datetime <=? t) && (t <=? max_datetime).

End Calendar.

(** ** Frames *)

Module Row.

(** One row of the scanned frame, columns [dt] and [count].  Both columns
    are nullable: with [ignore_errors=True] the reader leaves null where a
    field is no value of the column's type. *)
Record t : Type := { dt : option Z; count : option Z }.

End Row.

Definition frame : Type := list Row.t.

(** A lazy frame, seen through what collecting it yields: its rows, or an
    exception when a source it scans cannot be read. *)
Definition LazyFrame : Type := exc frame.

Definition collect (f : LazyFrame) : exc frame := f.

(** [pl.concat([a, b], how="vertical_relaxed")] *)
Definition concat (a b : LazyFrame) : LazyFrame :=
  x <- a ;; y <- b ;; Return (x ++ y).

(** The exact sum of the non-null values of a column. *)
Definition exact_sum (col : list (option Z)) : Z :=
  fold_right (fun v acc => match v with Some x => x + acc | None => acc end) 0 col.

(** [pl.col(..).sum()] on an Int64 column: nulls are skipped, the
    accumulator is 64 bits wide. *)
Definition col_sum (col : list (option Z)) : Z := Int64.wrap (exact_sum col).

(** Element-wise [+] and [-] of two nullable 64-bit columns. *)
Definition opt_add (a b : option Z) : option Z :=
  match a, b with
  | Some x, Some y => Some (Int64.add x y)
  | _, _ => None
  end.

Definition opt_sub (a b : option Z) : option Z :=
  match a, b with
  | Some x, Some y => Some (Int64.sub x y)
  | _, _ => None
  end.

(** [column == literal] *)
Definition opt_eqb (a : option Z) (lit : Z) : option bool :=
  option_map (fun x => x =? lit) a.

(** [&] on nullable booleans. *)
Definition opt_and (a b : option bool) : option bool :=
  match a, b with
  | Some false, _ | _, Some false => Some false
  | Some true, Some true => Some true
  | _, _ => None
  end.

(** [filter] keeps the rows whose predicate is true; false and null drop. *)
Definition holds (p : option bool) : bool :=
  match p with
  | Some true => true
  | _ => false
  end.

(** [pl.col(..).shift(-n)]: row [i] takes the value [n] rows below it, the
    last [n] rows take null. *)
Definition shift_back {A : Type} (n : nat) (col : list (option A)) : list (option A) :=
  map (fun i => nth (i + n) col None) (seq 0 (List.length col)).

Definition option_eqb {K : Type} (eqb : K -> K -> bool) (a b : option K) : bool :=
  match a, b with
  | None, None => true
  | Some x, Some y => eqb x y
  | _, _ => false
  end.

Definition date_key_eqb : option string -> option string -> bool := option_eqb String.eqb.

(** The distinct keys of a column, each at its first occurrence. *)
Fixpoint distinct (keys : list (option string)) : list (option string) :=
  match keys with
  | [] => []
  | k :: rest => k :: filter (fun k' => negb (date_key_eqb k k')) (distinct rest)
  end.

(** [group_by(key).agg(pl.col(value).sum())] over (key, value) rows. *)
Definition group_by_sum (rows : list (option string * option Z)) : list (option string * Z) :=
  map (fun k => (k, col_sum (map snd (filter (fun r => date_key_eqb (fst r) k) rows))))
      (distinct (map fst rows)).

(** ** The analyzer *)

(** What a path given to [add_paths] stands for.  Which rows the reader
    makes of the text of a file is the library's business and is not
    modelled: a source is taken with the outcome of reading it. *)
Inductive source : Type :=
| Rejected                 (* [pl.scan_csv] raises on it, e.g. [None] *)
| Unreadable               (* scanned lazily; reading it raises when a query collects *)
| Readable (rows : frame). (* scanned lazily; these are the rows it reads *)

(** [pl.scan_csv(p, has_header=False, separator=" ", new_columns=["dt", "count"],
    ignore_errors=True, schema_overrides={"dt": pl.Datetime, "count": pl.Int64})] *)
Definition scan_csv (p : source) : exc LazyFrame :=
  match p with
  | Rejected => Raise
  | Unreadable => Return Raise
  | Readable rows => Return (Return rows)
  end.

Record TrafficAnalyzer : Type := { lf : option LazyFrame }.

(** [__init__] *)
Definition init : TrafficAnalyzer := {| lf := None |}.

(** One turn of the loop of [add_paths], after [scan] has been obtained. *)
Definition merge (self : TrafficAnalyzer) (scan : LazyFrame) : TrafficAnalyzer :=
  match lf self with
  | None => {| lf := Some scan |}
  | Some old => {| lf := Some (concat old scan) |}
  end.

(** The [for] loop of [add_paths].  It updates [self.lf] turn by turn; an
    exception leaves the loop with the updates made so far. *)
Fixpoint add_paths_loop (paths : list source) (self : TrafficAnalyzer)
  : TrafficAnalyzer * exc unit :=
  match paths with
  | [] => (self, Return tt)
  | p :: rest =>
      match scan_csv p with
      | Raise => (self, Raise)
      | Return scan => add_paths_loop rest (merge self scan)
      end
  end.

(** [add_paths]: the loop inside one [try]/[except Exception]. *)
Definition add_paths (paths : list source) (self : TrafficAnalyzer)
  : TrafficAnalyzer * exc unit :=
  let (self', outcome) := add_paths_loop paths self in
  (self', try_except outcome tt).

(** Python's [x or 0] on an integer. *)
Definition py_or (x d : Z) : Z := if x =? 0 then d else x.

Definition total_body (self : TrafficAnalyzer) : exc Z :=
  match lf self with
  | None => Return 0
  | Some f =>
      rows <- collect f ;;
      let item := col_sum (map Row.count rows) in
      Return (py_or item 0)
  end.

Definition total (self : TrafficAnalyzer) : exc Z :=
  try_except (total_body self) 0.

Module DayTotal.

Record t : Type := { date : option string; total_cars : Z }.

End DayTotal.

Definition date_le (a b : option string * Z) : bool :=
  nulls_first String.leb (fst a) (fst b).

Definition per_day_body (e : Engine) (self : TrafficAnalyzer) : exc (list DayTotal.t) :=
  match lf self with
  | None => Return []
  | Some f =>
      rows <- collect f ;;
      let with_date :=
        map (fun r => (option_map Calendar.strftime_date (Row.dt r), Row.count r)) rows in
      let grouped := group_by_sum with_date in
      let sorted := sort e date_le grouped in
      Return (map (fun g => {| DayTotal.date := fst g; DayTotal.total_cars := snd g |}) sorted)
  end.

Definition per_day (e : Engine) (self : TrafficAnalyzer) : exc (list DayTotal.t) :=
  try_except (per_day_body e self) [].

Module RankedSlot.

Record t : Type := { datetime : option string; count : option Z }.

End RankedSlot.

(** [sort(by=["count"], descending=[True])]: the count is the only key. *)
Definition count_desc_le (a b : Row.t) : bool :=
  nulls_first Z.geb (Row.count a) (Row.count b).

(** The length [head(k)] slices with.  [head(k)] is [slice(0, k)]: it
    refuses a negative length (ValueError), and a length that is no value of
    the engine's row index cannot be handed over (OverflowError).  Both are
    raised while the query is put together, before anything is collected. *)
Definition head_length (e : Engine) (k : Z) : exc nat :=
  if (k <? 0) || (idx_max e <? k) then Raise else Return (Z.to_nat k).

Definition top_k_body (e : Engine) (k : Z) (self : TrafficAnalyzer) : exc (list RankedSlot.t) :=
  match lf self with
  | None => Return []
  | Some f =>
      n <- head_length e k ;;
      rows <- collect f ;;
      let sorted := sort e count_desc_le rows in
      let out :=
        map (fun r => {| RankedSlot.datetime := option_map Calendar.strftime_datetime (Row.dt r);
                         RankedSlot.count := Row.count r |}) sorted in
      Return (firstn n out)
  end.

Definition top_k (e : Engine) (k : Z) (self : TrafficAnalyzer) : exc (list RankedSlot.t) :=
  try_except (top_k_body e k self) [].

Module Shifted.

(** A row after [with_columns([dt1, dt2, count1, count2])]. *)
Record t : Type := {
  dt : option Z; dt1 : option Z; dt2 : option Z;
  count : option Z; count1 : option Z; count2 : option Z
}.

(** [(dt1 - dt == 30 min) & (dt2 - dt1 == 30 min)] *)
Definition contiguous (w : t) : option bool :=
  opt_and (opt_eqb (opt_sub (dt1 w) (dt w)) Calendar.half_hour)
          (opt_eqb (opt_sub (dt2 w) (dt1 w)) Calendar.half_hour).

(** [count + count1 + count2] *)
Definition sum_count (w : t) : option Z :=
  opt_add (opt_add (count w) (count1 w)) (count2 w).

End Shifted.

Definition dt_le (a b : Row.t) : bool := nulls_first Z.leb (Row.dt a) (Row.dt b).

(** The frame with the four shifted columns added, row by row. *)
Definition with_shifted (s : frame) : list Shifted.t :=
  let dts := map Row.dt s in
  let counts := map Row.count s in
  map (fun i =>
         {| Shifted.dt := nth i dts None;
            Shifted.dt1 := nth i (shift_back 1 dts) None;
            Shifted.dt2 := nth i (shift_back 2 dts) None;
            Shifted.count := nth i counts None;
            Shifted.count1 := nth i (shift_back 1 counts) None;
            Shifted.count2 := nth i (shift_back 2 counts) None |})
      (seq 0 (List.length s)).

Module Summed.

(** A row after [select(["dt", "dt1", "dt2", "sum_count"])]. *)
Record t : Type := { dt : option Z; dt1 : option Z; dt2 : option Z; sum_count : option Z }.

End Summed.

Definition summed_of (w : Shifted.t) : Summed.t :=
  {| Summed.dt := Shifted.dt w; Summed.dt1 := Shifted.dt1 w; Summed.dt2 := Shifted.dt2 w;
     Summed.sum_count := Shifted.sum_count w |}.

Definition sum_le (a b : Summed.t) : bool :=
  nulls_first Z.leb (Summed.sum_count a) (Summed.sum_count b).

Module Window.

(** The dictionary [min_window_sum] returns when it is not empty. *)
Record t : Type := { datetime_range : list string; total_cars : option Z }.

End Window.

(** [datetime.isoformat()] on a value of [to_dicts()]: the value must be a
    Python [datetime], which a null is not and which exists only within
    Python's range. *)
Definition py_isoformat (v : option Z) : exc string :=
  match v with
  | None => Raise
  | Some t => if Calendar.in_datetime_rangeb t then Return (Calendar.isoformat t) else Raise
  end.

(** The candidate windows, in the order the filter leaves them. *)
Definition candidates (e : Engine) (rows : frame) : list Summed.t :=
  map summed_of (filter (fun w => holds (Shifted.contiguous w)) (with_shifted (sort e dt_le rows))).

Definition min_window_sum_body (e : Engine) (self : TrafficAnalyzer) : exc (option Window.t) :=
  match lf self with
  | None => Return None
  | Some f =>
      rows <- collect f ;;
      let result := firstn 1 (sort e sum_le (candidates e rows)) in
      match result with
      | [] => Return None
      | row :: _ =>
          t0 <- py_isoformat (Summed.dt row) ;;
          t1 <- py_isoformat (Summed.dt1 row) ;;
          t2 <- py_isoformat (Summed.dt2 row) ;;
          Return (Some {| Window.datetime_range := [t0; t1; t2];
                          Window.total_cars := Summed.sum_count row |})
      end
  end.

Definition min_window_sum (e : Engine) (self : TrafficAnalyzer) : exc (option Window.t) :=
  try_except (min_window_sum_body e self) None.

(** ** Records and datasets

    A record is a row whose two fields are present; a dataset is a frame of
    records. *)

Module Rec.

Record t : Type := { timestamp : Z; count : Z }.

End Rec.

Definition row_of (r : Rec.t) : Row.t :=
  {| Row.dt := Some (Rec.timestamp r); Row.count := Some (Rec.count r) |}.

(** The analyzer whose frame holds exactly the records [ds]. *)
Definition loaded (ds : list Rec.t) : TrafficAnalyzer :=
  {| lf := Some (Return (map row_of ds)) |}.

(** The analyzer after [add_paths([path])] on a fresh instance, where [path]
    reads as the records [ds]. *)
Definition loaded_file (ds : list Rec.t) : TrafficAnalyzer :=
  fst (add_paths [Readable (map row_of ds)] init).

Definition rec (t c : Z) : Rec.t := {| Rec.timestamp := t; Rec.count := c |}.

(** The timestamp of [y-m-d] at [h:mi:00]. *)
Definition at_time (y m d h mi : Z) : Z :=
  (Calendar.days_from_civil y m d * 86400 + h * 3600 + mi * 60) * Calendar.us_per_second.

(** The sample of [tests/test_traffic_analyzer.py]. *)
Definition SAMPLE : list Rec.t :=
  [ rec (at_time 2021 12 1 5 0) 5;    rec (at_time 2021 12 1 5 30) 12;
    rec (at_time 2021 12 1 6 0) 14;   rec (at_time 2021 12 1 6 30) 15;
    rec (at_time 2021 12 1 7 0) 25;   rec (at_time 2021 12 1 7 30) 46;
    rec (at_time 2021 12 1 8 0) 42;   rec (at_time 2021 12 1 15 0) 9;
    rec (at_time 2021 12 1 15 30) 11; rec (at_time 2021 12 1 23 30) 0;
    rec (at_time 2021 12 5 9 30) 18;  rec (at_time 2021 12 5 10 30) 15;
    rec (at_time 2021 12 5 11 30) 7;  rec (at_time 2021 12 5 12 30) 6;
    rec (at_time 2021 12 5 13 30) 9;  rec (at_time 2021 12 5 14 30) 11;
    rec (at_time 2021 12 5 15 30) 15; rec (at_time 2021 12 8 18 0) 33;
    rec (at_time 2021 12 8 19 0) 28;  rec (at_time 2021 12 8 20 0) 25;
    rec (at_time 2021 12 8 21 0) 21;  rec (at_time 2021 12 8 22 0) 16;
    rec (at_time 2021 12 8 23 0) 11;  rec (at_time 2021 12 9 0 0) 4 ].

(** ** The vocabulary of the claims *)

Definition zsum (l : list Z) : Z := fold_right Z.add 0 l.

(** The literal sum of the counts of a dataset. *)
Definition sum_counts (ds : list Rec.t) : Z := zsum (map Rec.count ds).

(** The calendar date of a record, as [per_day] writes it. *)
Definition date_of (r : Rec.t) : string := Calendar.strftime_date (Rec.timestamp r).

Definition on_date (d : string) (r : Rec.t) : bool := String.eqb (date_of r) d.

(** The literal sum of the counts of the records of one date. *)
Definition day_sum (ds : list Rec.t) (d : string) : Z :=
  sum_counts (filter (on_date d) ds).

Definition sum_total_cars (days : list DayTotal.t) : Z :=
  zsum (map DayTotal.total_cars days).

(** The exact sum of the non-null values of the group of key [k]. *)
Definition group_exact (rows : list (option string * option Z)) (k : option string) : Z :=
  exact_sum (map snd (filter (fun r => date_key_eqb (fst r) k) rows)).

Definition string_lt (a b : string) : Prop := String.ltb a b = true.

(** What [per_day] is to return for the dataset [ds] when a day's sum is
    reported as [report] of the literal sum: one entry per date of [ds], in
    strictly ascending order of the date strings. *)
Definition per_day_outcome (report : Z -> Z) (e : Engine) (ds : list Rec.t) : Prop :=
  exists dates : list string,
    per_day e (loaded ds)
    = Return (map (fun d => {| DayTotal.date := Some d;
                               DayTotal.total_cars := report (day_sum ds d) |}) dates)
    /\ StronglySorted string_lt dates
    /\ forall d, In d dates <-> exists r, In r ds /\ date_of r = d.

(** The dataset sorted by timestamp, as [min_window_sum] sorts it. *)
Definition by_dt (e : Engine) (ds : list Rec.t) : frame :=
  sort e dt_le (map row_of ds).

(** [r0], [r1], [r2] are the rows [i], [i+1], [i+2] of the sorted frame [s]
    and step by exactly 30 minutes. *)
Definition qualifying (s : frame) (i : nat) (r0 r1 r2 : Rec.t) : Prop :=
  nth_error s i = Some (row_of r0)
  /\ nth_error s (i + 1) = Some (row_of r1)
  /\ nth_error s (i + 2) = Some (row_of r2)
  /\ Rec.timestamp r1 - Rec.timestamp r0 = Calendar.half_hour
  /\ Rec.timestamp r2 - Rec.timestamp r1 = Calendar.half_hour.

Definition sum3 (r0 r1 r2 : Rec.t) : Z := Rec.count r0 + Rec.count r1 + Rec.count r2.

(** The dictionary for the window [r0], [r1], [r2] with [total] cars. *)
Definition window_of (r0 r1 r2 : Rec.t) (total : Z) : Window.t :=
  {| Window.datetime_range :=
       [Calendar.isoformat (Rec.timestamp r0); Calendar.isoformat (Rec.timestamp r1);
        Calendar.isoformat (Rec.timestamp r2)];
     Window.total_cars := Some total |}.

(** What [min_window_sum] is to return for the dataset [ds] when a window's
    sum is reported as [report] of the literal sum: a qualifying window of
    least reported sum, or the empty dictionary when none qualifies. *)
Definition min_window_outcome (report : Z -> Z) (e : Engine) (ds : list Rec.t) : Prop :=
  let s := by_dt e ds in
  (exists i r0 r1 r2,
      qualifying s i r0 r1 r2
      /\ min_window_sum e (loaded ds)
         = Return (Some (window_of r0 r1 r2 (report (sum3 r0 r1 r2))))
      /\ forall j q0 q1 q2,
          qualifying s j q0 q1 q2 -> report (sum3 r0 r1 r2) <= report (sum3 q0 q1 q2))
  \/ ((forall i r0 r1 r2, ~ qualifying s i r0 r1 r2)
      /\ min_window_sum e (loaded ds) = Return None).

(** The same, with the tie-break: among the qualifying windows of least sum
    the one returned starts earliest. *)
Definition earliest_window_outcome (e : Engine) (ds : list Rec.t) : Prop :=
  let s := by_dt e ds in
  (exists i r0 r1 r2,
      qualifying s i r0 r1 r2
      /\ min_window_sum e (loaded ds) = Return (Some (window_of r0 r1 r2 (sum3 r0 r1 r2)))
      /\ forall j q0 q1 q2,
          qualifying s j q0 q1 q2 ->
          sum3 r0 r1 r2 <= sum3 q0 q1 q2
          /\ (sum3 q0 q1 q2 = sum3 r0 r1 r2 -> Rec.timestamp r0 <= Rec.timestamp q0))
  \/ ((forall i r0 r1 r2, ~ qualifying s i r0 r1 r2)
      /\ min_window_sum e (loaded ds) = Return None).

(** Every timestamp of the dataset is one a Python [datetime] can hold. *)
Definition datetimes (ds : list Rec.t) : Prop :=
  Forall (fun r => Calendar.in_datetime_range (Rec.timestamp r)) ds.

(** The sum of every qualifying window fits the 64 bits of the column. *)
Definition window_sums_fit (e : Engine) (ds : list Rec.t) : Prop :=
  forall i r0 r1 r2,
    qualifying (by_dt e ds) i r0 r1 r2 -> Int64.in_range (sum3 r0 r1 r2).

(** The sum of every day fits the 64 bits of the column. *)
Definition day_sums_fit (ds : list Rec.t) : Prop :=
  Forall (fun r => Int64.in_range (day_sum ds (date_of r))) ds.

(** The engine's sort leaves rows of equal [sum_count] in incoming order. *)
Definition keeps_sum_order (e : Engine) : Prop :=
  forall l : list Summed.t, arrange e Summed.t l = l.

(** [top_k]'s order as documented: count descending, ties by ascending
    datetime. *)
Definition slot_before (a b : RankedSlot.t) : Prop :=
  match RankedSlot.count a, RankedSlot.count b with
  | Some ca, Some cb =>
      cb < ca
      \/ (ca = cb
          /\ match RankedSlot.datetime a, RankedSlot.datetime b with
             | Some da, Some db => String.leb da db = true
             | _, _ => True
             end)
  | _, _ => True
  end.

(** The order [top_k] does establish: count descending, nulls first. *)
Definition slot_count_ge (a b : RankedSlot.t) : Prop :=
  nulls_first Z.geb (RankedSlot.count a) (RankedSlot.count b) = true.

(** The sources of a call that [scan_csv] accepts before the first one it
    rejects. *)
Fixpoint accepted_prefix (paths : list source) : list source :=
  match paths with
  | [] => []
  | Rejected :: _ => []
  | p :: rest => p :: accepted_prefix rest
  end.

(** The rows a list of sources holds, when all of them can be read. *)
Fixpoint rows_of_sources (paths : list source) : option frame :=
  match paths with
  | [] => Some []
  | Readable rows :: rest => option_map (app rows) (rows_of_sources rest)
  | _ :: _ => None
  end.

(** The rows the analyzer holds: none while the dataset is absent, those of
    its frame when the frame can be read. *)
Definition rows_held (self : TrafficAnalyzer) : option frame :=
  match lf self with
  | None => Some []
  | Some (Return rows) => Some rows
  | Some Raise => None
  end.

(** A source that cannot be added or read. *)
Definition fails (p : source) : bool :=
  match p with
  | Readable _ => false
  | _ => true
  end.

(** Per-source skipping: the call leaves the analyzer as the same call
    without the failing sources would. *)
Definition skips_only_failing (paths : list source) (self : TrafficAnalyzer) : Prop :=
  fst (add_paths paths self)
  = fst (add_paths (filter (fun p => negb (fails p)) paths) self).

(** The row of [with_shifted s] at index [i], read off the columns of [s]. *)
Definition shifted_at (s : frame) (i : nat) : Shifted.t :=
  {| Shifted.dt := nth i (map Row.dt s) None;
     Shifted.dt1 := nth (i + 1) (map Row.dt s) None;
     Shifted.dt2 := nth (i + 2) (map Row.dt s) None;
     Shifted.count := nth i (map Row.count s) None;
     Shifted.count1 := nth (i + 1) (map Row.count s) None;
     Shifted.count2 := nth (i + 2) (map Row.count s) None |}.

(** The indices of [s] at which a window passes the filter, ascending. *)
Definition candidate_indices (s : frame) : list nat :=
  filter (fun i => holds (Shifted.contiguous (shifted_at s i))) (seq 0 (List.length s)).

Definition candidate_at (s : frame) (i : nat) : Summed.t := summed_of (shifted_at s i).

(** The candidate row of the window [r0], [r1], [r2]. *)
Definition summed (r0 r1 r2 : Rec.t) : Summed.t :=
  {| Summed.dt := Some (Rec.timestamp r0);
     Summed.dt1 := Some (Rec.timestamp r1);
     Summed.dt2 := Some (Rec.timestamp r2);
     Summed.sum_count := Some (Int64.wrap (sum3 r0 r1 r2)) |}.

(** ** Datasets used below *)

(** 2021-12-01T05:00:00 *)
Definition at_0500 : Z := 1638334800000000.

(** Two records of one day whose counts add up to 2^63. *)
Definition huge_pair : list Rec.t :=
  [rec at_0500 Int64.max_int; rec (at_0500 + Calendar.half_hour) 1].

(** Two days of 2^62 cars each. *)
Definition huge_days : list Rec.t :=
  [rec at_0500 (2 ^ 62); rec (at_0500 + Calendar.us_per_day) (2 ^ 62)].

(** Three consecutive half-hours of 2^62 cars each. *)
Definition huge_window : list Rec.t :=
  [rec at_0500 (2 ^ 62); rec (at_0500 + Calendar.half_hour) (2 ^ 62);
   rec (at_0500 + 2 * Calendar.half_hour) (2 ^ 62)].

(** Four consecutive half-hours of one car each: the windows starting at
    05:00 and at 05:30 both sum to 3. *)
Definition tied_windows : list Rec.t :=
  [rec at_0500 1; rec (at_0500 + Calendar.half_hour) 1;
   rec (at_0500 + 2 * Calendar.half_hour) 1; rec (at_0500 + 3 * Calendar.half_hour) 1].

(** Three consecutive half-hours, 5 + 12 + 14 cars. *)
Definition one_window : list Rec.t :=
  [rec at_0500 5; rec (at_0500 + Calendar.half_hour) 12;
   rec (at_0500 + 2 * Calendar.half_hour) 14].

(** Two half-hours with the same count, the later one first in the file,
    and the same two records the other way round. *)
Definition tied_counts : list Rec.t :=
  [rec (at_time 2021 12 1 6 0) 5; rec (at_time 2021 12 1 5 0) 5].

Definition tied_counts_swapped : list Rec.t :=
  [rec (at_time 2021 12 1 5 0) 5; rec (at_time 2021 12 1 6 0) 5].

Definition slot (datetime : string) (count : Z) : RankedSlot.t :=
  {| RankedSlot.datetime := Some datetime; RankedSlot.count := Some count |}.

(** A source that reads as one record. *)
Definition good_source : source := Readable [row_of (rec at_0500 7)].

(** ** Further vocabulary, and [main.py] *)

(** The analyzer whose frame reads as [rows]. *)
Definition holding (rows : frame) : TrafficAnalyzer := {| lf := Some (Return rows) |}.

(** The slot [top_k] makes of a row. *)
Definition slot_of_row (r : Row.t) : RankedSlot.t :=
  {| RankedSlot.datetime := option_map Calendar.strftime_datetime (Row.dt r);
     RankedSlot.count := Row.count r |}.


Definition rejected (p : source) : bool :=
  match p with
  | Rejected => true
  | _ => false
  end.

(** A row whose timestamp is [t]. *)
Definition has_dt (t : Z) (r : Row.t) : bool :=
  match Row.dt r with
  | Some u => u =? t
  | None => false
  end.

Module Report.

(** What [main] logs: the four results, in the order it computes them. *)
Record t : Type := {
  total : Z;
  days : list DayTotal.t;
  top3 : list RankedSlot.t;
  min_window : option Window.t
}.

End Report.

(** [main(file_paths)]: a fresh analyzer, one [add_paths], the four queries
    (with [k=3]), then the summary.  Logging and timing are left out. *)
Definition main (e : Engine) (file_paths : list source) : exc Report.t :=
  let ta := init in
  let (ta, added) := add_paths file_paths ta in
  _ <- added ;;
  total <- total ta ;;
  days <- per_day e ta ;;
  top3 <- top_k e 3 ta ;;
  min_window <- min_window_sum e ta ;;
  Return {| Report.total := total; Report.days := days; Report.top3 := top3;
            Report.min_window := min_window |}.

(** The same timestamp read twice, 5 and 7 cars, then two more half-hours. *)
Definition repeated_start : list Rec.t :=
  [rec at_0500 5; rec at_0500 7; rec (at_0500 + Calendar.half_hour) 1;
   rec (at_0500 + 2 * Calendar.half_hour) 1].

(** * Part II: properties *)

(** ** 64-bit arithmetic *)

Lemma wrap_in_range (z : Z) : Int64.in_range z -> Int64.wrap z = z.
Proof.
  unfold Int64.in_range, Int64.wrap, Int64.min_int, Int64.max_int, Int64.modulus.
  intros H. rewrite Z.mod_small; lia.
Qed.

Lemma wrap_range (z : Z) : Int64.in_range (Int64.wrap z).
Proof.
  unfold Int64.in_range, Int64.wrap, Int64.min_int, Int64.max_int, Int64.modulus.
  pose proof (Z.mod_pos_bound (z + 2 ^ 63) (2 ^ 64) ltac:(lia)). lia.
Qed.

Lemma wrap_add_l (a b : Z) : Int64.wrap (Int64.wrap a + b) = Int64.wrap (a + b).
Proof.
  unfold Int64.wrap. f_equal.
  replace ((a + 2 ^ 63) mod Int64.modulus - 2 ^ 63 + b + 2 ^ 63)
    with ((a + 2 ^ 63) mod Int64.modulus + b) by lia.
  rewrite Zplus_mod_idemp_l. f_equal. lia.
Qed.

Lemma wrap_add_r (a b : Z) : Int64.wrap (a + Int64.wrap b) = Int64.wrap (a + b).
Proof. rewrite (Z.add_comm a), wrap_add_l. f_equal. lia. Qed.

Lemma wrap_wrap (a : Z) : Int64.wrap (Int64.wrap a) = Int64.wrap a.
Proof. apply wrap_in_range, wrap_range. Qed.

(** A difference of two Python datetimes is far from the 64-bit limits. *)
Lemma sub_datetimes (t u : Z) :
  Calendar.in_datetime_range t -> Calendar.in_datetime_range u ->
  Int64.sub t u = t - u.
Proof.
  unfold Calendar.in_datetime_range. intros Ht Hu.
  apply wrap_in_range. unfold Int64.in_range.
  change Calendar.min_datetime with (-62135596800000000) in *.
  change Calendar.max_datetime with 253402300799999999 in *.
  change Int64.min_int with (-9223372036854775808).
  change Int64.max_int with 9223372036854775807.
  lia.
Qed.

(** ** Sorting *)

Section StableSortFacts.

Context {A : Type}.
Variable le : A -> A -> bool.
Hypothesis le_total : forall a b, le a b = true \/ le b a = true.
Hypothesis le_trans : forall a b c, le a b = true -> le b c = true -> le a c = true.

Let le_prop (a b : A) : Prop := le a b = true.

Lemma insert_perm (x : A) (l : list A) : Permutation (insert le x l) (x :: l).
Proof.
  induction l as [|y l IH]; simpl.
  - apply Permutation_refl.
  - destruct (le x y).
    + apply Permutation_refl.
    + eapply Permutation_trans; [apply perm_skip, IH | apply perm_swap].
Qed.

Lemma stable_sort_perm (l : list A) : Permutation (stable_sort le l) l.
Proof.
  induction l as [|x l IH]; simpl.
  - constructor.
  - eapply Permutation_trans; [apply insert_perm | apply perm_skip, IH].
Qed.

Lemma insert_sorted (x : A) (l : list A) :
  StronglySorted le_prop l -> StronglySorted le_prop (insert le x l).
Proof.
  induction l as [|y l IH]; simpl; intro Hs.
  - constructor; constructor.
  - inversion Hs as [|? ? Hl Hy]; subst.
    destruct (le x y) eqn:Hxy.
    + constructor; [assumption|].
      constructor; [exact Hxy|].
      rewrite Forall_forall in *. intros z Hz.
      eapply le_trans; [exact Hxy | apply Hy, Hz].
    + constructor; [apply IH, Hl|].
      rewrite Forall_forall in *. intros z Hz.
      apply (Permutation_in _ (insert_perm x l)) in Hz.
      destruct Hz as [<- | Hz].
      * destruct (le_total x y) as [H | H]; [congruence | exact H].
      * apply Hy, Hz.
Qed.

Lemma stable_sort_sorted (l : list A) : StronglySorted le_prop (stable_sort le l).
Proof.
  induction l as [|x l IH]; simpl.
  - constructor.
  - apply insert_sorted, IH.
Qed.

(** A sorted arrangement comes out as it went in: whichever sorted
    permutation of a frame the engine arranges, that is the outcome. *)
Lemma stable_sort_id (l : list A) :
  StronglySorted le_prop l -> stable_sort le l = l.
Proof.
  induction 1 as [|x l Hs IH Hx]; simpl; [reflexivity|].
  rewrite IH. destruct l as [|y l]; simpl; [reflexivity|].
  inversion Hx as [|? ? Hxy _]; subst. unfold le_prop in Hxy. now rewrite Hxy.
Qed.

(** The row that comes out first stood in the incoming list behind rows
    that all exceed it strictly, and no row of the list is below it. *)
Lemma stable_sort_head (l : list A) (x : A) (rest : list A) :
  stable_sort le l = x :: rest ->
  exists l1 l2,
    l = l1 ++ x :: l2
    /\ Forall (fun y => le y x = false) l1
    /\ Forall (fun y => le x y = true) l2.
Proof.
  revert x rest. induction l as [|a l IH]; simpl; intros x rest H; [discriminate|].
  destruct (stable_sort le l) as [|z s] eqn:Hs.
  - simpl in H. injection H as <- <-.
    assert (l = []) as ->.
    { apply Permutation_nil. rewrite <- Hs. apply stable_sort_perm. }
    exists [], []. repeat split; constructor.
  - destruct (IH z s eq_refl) as (l1 & l2 & -> & H1 & H2).
    simpl in H. destruct (le a z) eqn:Haz.
    + injection H as <- <-. exists [], (l1 ++ z :: l2).
      repeat split; [constructor|].
      rewrite Forall_forall in *. intros y Hy.
      apply in_app_or in Hy. destruct Hy as [Hy | [<- | Hy]].
      * apply le_trans with z; [exact Haz|].
        destruct (le_total z y) as [H | H]; [exact H|].
        rewrite (H1 y Hy) in H. discriminate.
      * exact Haz.
      * apply le_trans with z; [exact Haz | apply H2, Hy].
    + injection H as <- <-. exists (a :: l1), l2.
      repeat split; [constructor; assumption | assumption].
Qed.

End StableSortFacts.

Section SortFacts.

Context {A : Type}.
Variable e : Engine.
Variable le : A -> A -> bool.
Hypothesis le_total : forall a b, le a b = true \/ le b a = true.
Hypothesis le_trans : forall a b c, le a b = true -> le b c = true -> le a c = true.

Lemma sort_perm (l : list A) : Permutation (sort e le l) l.
Proof.
  unfold sort. eapply Permutation_trans; [apply stable_sort_perm | apply arrange_perm].
Qed.

Lemma sort_sorted (l : list A) :
  StronglySorted (fun a b => le a b = true) (sort e le l).
Proof. unfold sort. apply stable_sort_sorted; assumption. Qed.

Lemma sort_nil (l : list A) : sort e le l = [] -> l = [].
Proof.
  intro H. apply Permutation_nil. rewrite <- H. apply sort_perm.
Qed.

(** The first row of a sorted frame is a row of the frame that no row is
    below. *)
Lemma sort_head_least (l : list A) (x : A) (rest : list A) :
  sort e le l = x :: rest ->
  In x l /\ forall y, In y l -> le x y = true.
Proof.
  intro H. pose proof (sort_perm l) as Hp. pose proof (sort_sorted l) as Hs.
  rewrite H in Hp, Hs. split.
  - eapply Permutation_in; [exact Hp | now left].
  - intros y Hy. apply (Permutation_in _ (Permutation_sym Hp)) in Hy.
    inversion Hs as [|? ? _ Hx]; subst.
    destruct Hy as [<- | Hy].
    + destruct (le_total x x); assumption.
    + rewrite Forall_forall in Hx. apply Hx, Hy.
Qed.

End SortFacts.

(** ** The scenario of the repository's tests *)

Example at_time_0500 : at_time 2021 12 1 5 0 = at_0500.
Proof. reflexivity. Qed.

Example sample_total : total (loaded_file SAMPLE) = Return 398.
Proof. vm_compute. reflexivity. Qed.

Example sample_per_day (e : Engine) :
  e = order_keeping \/ e = order_reversing ->
  per_day e (loaded_file SAMPLE)
  = Return [ {| DayTotal.date := Some "2021-12-01"%string; DayTotal.total_cars := 179 |};
             {| DayTotal.date := Some "2021-12-05"%string; DayTotal.total_cars := 81 |};
             {| DayTotal.date := Some "2021-12-08"%string; DayTotal.total_cars := 134 |};
             {| DayTotal.date := Some "2021-12-09"%string; DayTotal.total_cars := 4 |} ].
Proof. intros [-> | ->]; vm_compute; reflexivity. Qed.

Example sample_top3 :
  top_k order_keeping 3 (loaded_file SAMPLE)
  = Return [ slot "2021-12-01T07:30:00" 46; slot "2021-12-01T08:00:00" 42;
             slot "2021-12-08T18:00:00" 33 ].
Proof. vm_compute. reflexivity. Qed.

Example sample_min_window_sum (e : Engine) :
  e = order_keeping \/ e = order_reversing ->
  min_window_sum e (loaded_file SAMPLE)
  = Return (Some {| Window.datetime_range :=
                      [ "2021-12-01T05:00:00"; "2021-12-01T05:30:00";
                        "2021-12-01T06:00:00" ]%string;
                    Window.total_cars := Some 31 |}).
Proof. intros [-> | ->]; vm_compute; reflexivity. Qed.

Example fresh_defaults (e : Engine) :
  total init = Return 0 /\ per_day e init = Return [] /\ top_k e 3 init = Return []
  /\ min_window_sum e init = Return None.
Proof. repeat split. Qed.

(** ** [total] *)

Lemma py_or_0 (x : Z) : py_or x 0 = x.
Proof. unfold py_or. destruct (Z.eqb_spec x 0); congruence. Qed.

Lemma total_rows (rows : frame) :
  total {| lf := Some (Return rows) |} = Return (col_sum (map Row.count rows)).
Proof. unfold total, total_body. simpl. now rewrite py_or_0. Qed.

Lemma exact_sum_records (ds : list Rec.t) :
  exact_sum (map Row.count (map row_of ds)) = sum_counts ds.
Proof.
  unfold sum_counts, zsum. induction ds as [|r ds IH]; simpl; [reflexivity|].
  now rewrite IH.
Qed.

Lemma total_loaded (ds : list Rec.t) :
  total (loaded ds) = Return (Int64.wrap (sum_counts ds)).
Proof. unfold loaded. rewrite total_rows. unfold col_sum. now rewrite exact_sum_records. Qed.

(** C3, as stated, fails: the counts 2^63 - 1 and 1 add up to 2^63, and
    [total] returns -2^63. *)
Lemma total_wraps_at_64_bits :
  total (loaded huge_pair) = Return (- 2 ^ 63)
  /\ sum_counts huge_pair = 2 ^ 63
  /\ total (loaded huge_pair) <> Return (sum_counts huge_pair).
Proof. vm_compute. repeat split; discriminate. Qed.

(** C3, amended: [total] is the sum of the counts of all records reduced to
    the signed 64-bit range of the column, hence the literal sum whenever
    that sum fits the range; it is 0 for an absent and for an empty
    dataset. *)
Theorem total_is_sum_of_counts (ds : list Rec.t) :
  total (loaded ds) = Return (Int64.wrap (sum_counts ds))
  /\ (Int64.in_range (sum_counts ds) -> total (loaded ds) = Return (sum_counts ds))
  /\ total init = Return 0
  /\ total (loaded []) = Return 0.
Proof.
  repeat split.
  - apply total_loaded.
  - intro H. rewrite total_loaded, wrap_in_range; auto.
Qed.

Lemma total_is_sum_of_counts_witness :
  Int64.in_range (sum_counts one_window) /\ total (loaded one_window) = Return 31.
Proof.
  assert (H : Int64.in_range (sum_counts one_window)) by (vm_compute; split; discriminate).
  split; [exact H|].
  exact (proj1 (proj2 (total_is_sum_of_counts one_window)) H).
Defined.

(** ** [top_k] *)

(** C10: [top_k(0)] is empty, whatever the analyzer holds. *)
Theorem top_k_zero_is_empty (e : Engine) (self : TrafficAnalyzer) :
  top_k e 0 self = Return [].
Proof.
  unfold top_k, top_k_body, head_length, idx_max.
  destruct (lf self) as [[rows|]|]; destruct (idx_size e); reflexivity.
Qed.

(** C2: the sort key of [top_k] is the count alone, so two slots with the
    same count come out in an order their timestamps have no part in.  With
    an engine that keeps ties in file order the file [tied_counts] yields
    the later half-hour first; with one that reverses them the same two
    records in the other order do.  Neither output is in the documented
    order. *)
Theorem top_k_ties_ignore_datetime :
  top_k order_keeping 2 (loaded_file tied_counts)
  = Return [slot "2021-12-01T06:00:00" 5; slot "2021-12-01T05:00:00" 5]
  /\ top_k order_reversing 2 (loaded_file tied_counts_swapped)
     = Return [slot "2021-12-01T06:00:00" 5; slot "2021-12-01T05:00:00" 5]
  /\ ~ Sorted slot_before [slot "2021-12-01T06:00:00" 5; slot "2021-12-01T05:00:00" 5].
Proof.
  split; [vm_compute; reflexivity|]. split; [vm_compute; reflexivity|].
  intro H. inversion H as [|? ? _ Hd]; subst. inversion Hd as [|? ? Hb]; subst.
  vm_compute in Hb. destruct Hb as [Hb | [_ Hb]]; discriminate.
Qed.

(** ** The queries never raise *)

Lemma try_except_returns {A : Type} (body : exc A) (default : A) :
  exists v, try_except body default = Return v.
Proof. destruct body; simpl; eauto. Qed.

Lemma try_except_default {A : Type} (body : exc A) (default : A) :
  body = Raise -> try_except body default = Return default.
Proof. now intros ->. Qed.

(** C7: each query hands a value back to its caller in every state of the
    analyzer, never an exception; a fresh analyzer and one whose frame fails
    when collected get the documented defaults, and so does every run in
    which the body of the query raises. *)
Theorem queries_are_total (e : Engine) (k : Z) (self : TrafficAnalyzer) :
  ((exists v, total self = Return v)
   /\ (exists v, per_day e self = Return v)
   /\ (exists v, top_k e k self = Return v)
   /\ (exists v, min_window_sum e self = Return v))
  /\ (lf self = None \/ lf self = Some Raise ->
      total self = Return 0 /\ per_day e self = Return []
      /\ top_k e k self = Return [] /\ min_window_sum e self = Return None)
  /\ ((total_body self = Raise -> total self = Return 0)
      /\ (per_day_body e self = Raise -> per_day e self = Return [])
      /\ (top_k_body e k self = Raise -> top_k e k self = Return [])
      /\ (min_window_sum_body e self = Raise -> min_window_sum e self = Return None)).
Proof.
  split; [|split].
  - repeat split; apply try_except_returns.
  - unfold total, per_day, top_k, min_window_sum,
      total_body, per_day_body, top_k_body, min_window_sum_body.
    intros [-> | ->]; simpl; destruct (head_length e k); repeat split.
  - repeat split; apply try_except_default.
Qed.

(** ** [add_paths] *)

Lemma add_paths_loop_prefix (paths : list source) (self : TrafficAnalyzer) :
  fst (add_paths_loop paths self) = fst (add_paths_loop (accepted_prefix paths) self).
Proof.
  revert self. induction paths as [|p paths IH]; intro self; [reflexivity|].
  destruct p; simpl; auto.
Qed.

Lemma fst_add_paths (paths : list source) (self : TrafficAnalyzer) :
  fst (add_paths paths self) = fst (add_paths_loop paths self).
Proof. unfold add_paths. now destruct (add_paths_loop paths self). Qed.

Lemma snd_add_paths (paths : list source) (self : TrafficAnalyzer) :
  snd (add_paths paths self) = Return tt.
Proof.
  unfold add_paths. destruct (add_paths_loop paths self) as [self' [[]|]]; reflexivity.
Qed.

Lemma rows_held_merge (self : TrafficAnalyzer) (held rows : frame) :
  rows_held self = Some held ->
  rows_held (merge self (Return rows)) = Some (held ++ rows).
Proof.
  unfold rows_held, merge. destruct (lf self) as [[old|]|]; simpl; intro H.
  - now injection H as ->.
  - discriminate.
  - now injection H as <-.
Qed.

Lemma rows_held_add_paths_loop (paths : list source) :
  forall (self : TrafficAnalyzer) (held added : frame),
    rows_held self = Some held ->
    rows_of_sources paths = Some added ->
    rows_held (fst (add_paths_loop paths self)) = Some (held ++ added).
Proof.
  induction paths as [|p paths IH]; simpl; intros self held added Hh Ha.
  - injection Ha as <-. now rewrite app_nil_r.
  - destruct p as [| |rows]; try discriminate. simpl.
    destruct (rows_of_sources paths) as [more|] eqn:Hm; [|discriminate].
    injection Ha as <-. rewrite app_assoc.
    apply IH; [apply rows_held_merge, Hh | reflexivity].
Qed.

Lemma total_rows_held (self : TrafficAnalyzer) (held : frame) :
  rows_held self = Some held -> total self = Return (col_sum (map Row.count held)).
Proof.
  unfold rows_held. destruct self as [[[rows|]|]]; simpl; intro H.
  - injection H as ->. apply total_rows.
  - discriminate.
  - now injection H as <-.
Qed.

(** C8, as stated, fails: a source that [scan_csv] rejects ends the call, and
    the readable source listed after it is not added. *)
Lemma add_paths_stops_at_rejected_source :
  ~ skips_only_failing [Rejected; good_source] init
  /\ total (fst (add_paths [Rejected; good_source] init)) = Return 0
  /\ total (fst (add_paths [good_source] init)) = Return 7.
Proof.
  split; [|split; vm_compute; reflexivity].
  unfold skips_only_failing. vm_compute. discriminate.
Qed.

(** C8, amended: [add_paths] never raises.  A source that [scan_csv] rejects
    ends the call: the sources listed before it are merged, it and the
    sources after it are not.  What the analyzer held before the call stays,
    and with the records of the merged sources it is what later queries
    read, provided the merged sources can be read when a query collects. *)
Theorem add_paths_merges_accepted_prefix (paths : list source) (self : TrafficAnalyzer) :
  snd (add_paths paths self) = Return tt
  /\ fst (add_paths paths self) = fst (add_paths (accepted_prefix paths) self)
  /\ forall held added,
      rows_held self = Some held ->
      rows_of_sources (accepted_prefix paths) = Some added ->
      rows_held (fst (add_paths paths self)) = Some (held ++ added)
      /\ total (fst (add_paths paths self)) = Return (col_sum (map Row.count (held ++ added))).
Proof.
  split; [apply snd_add_paths|]. split.
  - rewrite !fst_add_paths. apply add_paths_loop_prefix.
  - intros held added Hh Ha.
    assert (H : rows_held (fst (add_paths paths self)) = Some (held ++ added)).
    { rewrite fst_add_paths, add_paths_loop_prefix.
      now apply rows_held_add_paths_loop. }
    split; [exact H | now apply total_rows_held].
Qed.

(** ** Grouping *)

Lemma date_key_eqb_eq (a b : option string) : date_key_eqb a b = true <-> a = b.
Proof.
  unfold date_key_eqb, option_eqb. destruct a as [x|], b as [y|]; try easy.
  rewrite String.eqb_eq. split; congruence.
Qed.

Lemma date_key_eqb_neq (a b : option string) : date_key_eqb a b = false <-> a <> b.
Proof.
  rewrite <- date_key_eqb_eq. destruct (date_key_eqb a b); split; congruence.
Qed.

Lemma distinct_In (k : option string) (keys : list (option string)) :
  In k (distinct keys) <-> In k keys.
Proof.
  induction keys as [|k0 keys IH]; simpl; [tauto|].
  rewrite filter_In, IH, negb_true_iff, date_key_eqb_neq. split.
  - intros [H | [H _]]; auto.
  - intros [H | H]; auto.
    destruct (date_key_eqb k0 k) eqn:E.
    + left. now apply date_key_eqb_eq.
    + right. split; [exact H|]. now apply date_key_eqb_neq.
Qed.

Lemma distinct_NoDup (keys : list (option string)) : NoDup (distinct keys).
Proof.
  induction keys as [|k0 keys IH]; simpl; constructor.
  - rewrite filter_In, negb_true_iff, date_key_eqb_neq. tauto.
  - now apply NoDup_filter.
Qed.

Lemma zsum_app (l1 l2 : list Z) : zsum (l1 ++ l2) = zsum l1 + zsum l2.
Proof. unfold zsum. induction l1 as [|x l1 IH]; simpl; lia. Qed.

Lemma zsum_perm (l1 l2 : list Z) : Permutation l1 l2 -> zsum l1 = zsum l2.
Proof. unfold zsum. induction 1; simpl; lia. Qed.

Lemma wrap_zsum_wrap (l : list Z) :
  Int64.wrap (zsum (map Int64.wrap l)) = Int64.wrap (zsum l).
Proof.
  unfold zsum. induction l as [|x l IH]; simpl; [reflexivity|].
  rewrite wrap_add_l, <- wrap_add_r, IH, wrap_add_r. reflexivity.
Qed.

Lemma filter_all {A : Type} (p : A -> bool) (l : list A) :
  (forall x, In x l -> p x = true) -> filter p l = l.
Proof.
  induction l as [|x l IH]; simpl; intro H; [reflexivity|].
  rewrite (H x (or_introl eq_refl)), IH; auto.
Qed.

Lemma filter_none {A : Type} (p : A -> bool) (l : list A) :
  (forall x, In x l -> p x = false) -> filter p l = [].
Proof.
  induction l as [|x l IH]; simpl; intro H; [reflexivity|].
  rewrite (H x (or_introl eq_refl)), IH; auto.
Qed.

(** Taking one key out of a list of distinct keys. *)
Lemma zsum_take_key (g : option string -> Z) (k0 : option string) (keys : list (option string)) :
  NoDup keys ->
  (~ In k0 keys -> g k0 = 0) ->
  g k0 + zsum (map g (filter (fun k => negb (date_key_eqb k0 k)) keys)) = zsum (map g keys).
Proof.
  induction 1 as [|d keys Hd Hnd IH]; simpl; intro H0.
  - rewrite H0 by tauto. reflexivity.
  - destruct (date_key_eqb k0 d) eqn:E; simpl.
    + apply date_key_eqb_eq in E. subst d.
      rewrite filter_all; [reflexivity|].
      intros x Hx. apply negb_true_iff, date_key_eqb_neq. intros ->. contradiction.
    + apply date_key_eqb_neq in E.
      change (zsum (g d :: ?l)) with (g d + zsum l).
      rewrite <- IH; [change (zsum (?a :: ?l)) with (a + zsum l); lia|].
      intro Hn. apply H0. intros [-> | Hin]; [now apply E | now apply Hn].
Qed.

(** The groups partition the rows: their exact sums add up to the exact sum
    of the whole column. *)
Lemma groups_partition (rows : list (option string * option Z)) :
  zsum (map (group_exact rows) (distinct (map fst rows))) = exact_sum (map snd rows).
Proof.
  induction rows as [|[k0 v0] rows IH]; [reflexivity|].
  cbn [map fst snd distinct].
  set (keys := distinct (map fst rows)) in *.
  assert (Hhead : forall k,
             group_exact ((k0, v0) :: rows) k
             = (if date_key_eqb k0 k then match v0 with Some x => x | None => 0 end else 0)
               + group_exact rows k).
  { intro k. unfold group_exact. cbn [filter fst].
    destruct (date_key_eqb k0 k); cbn [map snd exact_sum fold_right];
      [destruct v0|]; unfold exact_sum; lia. }
  change (zsum (?a :: ?l)) with (a + zsum l).
  rewrite Hhead.
  assert (E0 : date_key_eqb k0 k0 = true) by now apply date_key_eqb_eq.
  rewrite E0.
  rewrite (map_ext_in _ (group_exact rows)).
  - rewrite <- Z.add_assoc, zsum_take_key, IH.
    + cbn [exact_sum fold_right]. destruct v0; unfold exact_sum; lia.
    + apply distinct_NoDup.
    + intro Hn. unfold group_exact. rewrite filter_none; [reflexivity|].
      intros [k v] Hin. cbn [fst]. apply date_key_eqb_neq. intros ->.
      apply Hn, distinct_In. now apply (in_map fst) in Hin.
  - intros k Hk. apply filter_In in Hk. destruct Hk as [_ Hk].
    apply negb_true_iff in Hk. now rewrite Hhead, Hk.
Qed.

Lemma group_by_sum_unfold (rows : list (option string * option Z)) :
  group_by_sum rows
  = map (fun k => (k, Int64.wrap (group_exact rows k))) (distinct (map fst rows)).
Proof. reflexivity. Qed.

(** ** Orders *)

Lemma nulls_first_total {K : Type} (le : K -> K -> bool) :
  (forall a b, le a b = true \/ le b a = true) ->
  forall a b, nulls_first le a b = true \/ nulls_first le b a = true.
Proof. intros H [x|] [y|]; simpl; auto. Qed.

Lemma nulls_first_trans {K : Type} (le : K -> K -> bool) :
  (forall a b c, le a b = true -> le b c = true -> le a c = true) ->
  forall a b c,
    nulls_first le a b = true -> nulls_first le b c = true -> nulls_first le a c = true.
Proof. intros H [x|] [y|] [z|]; simpl; try easy. apply H. Qed.

Lemma Zleb_total (a b : Z) : (a <=? b) = true \/ (b <=? a) = true.
Proof. rewrite !Z.leb_le. lia. Qed.

Lemma Zleb_trans (a b c : Z) : (a <=? b) = true -> (b <=? c) = true -> (a <=? c) = true.
Proof. rewrite !Z.leb_le. lia. Qed.

Lemma string_leb_iff (a b : string) : String.leb a b = true <-> String.ltb a b = true \/ a = b.
Proof.
  unfold String.leb, String.ltb.
  destruct (String.compare a b) eqn:E.
  - split; [|reflexivity]. intros _. right. now apply String.compare_eq_iff.
  - split; auto.
  - split; [discriminate|]. intros [H | ->]; [discriminate|].
    assert (Hrefl : String.compare b b = Eq) by now apply String_as_OT.cmp_eq.
    congruence.
Qed.

Lemma string_ltb_trans (a b c : string) :
  String.ltb a b = true -> String.ltb b c = true -> String.ltb a c = true.
Proof.
  unfold String.ltb. intros H1 H2.
  destruct (String.compare a b) eqn:E1; try discriminate.
  destruct (String.compare b c) eqn:E2; try discriminate.
  apply String_as_OT.cmp_lt in E1, E2.
  pose proof (String_as_OT.lt_trans _ _ _ E1 E2) as H.
  apply String_as_OT.cmp_lt in H. unfold String_as_OT.cmp in H. now rewrite H.
Qed.

Lemma string_leb_trans (a b c : string) :
  String.leb a b = true -> String.leb b c = true -> String.leb a c = true.
Proof.
  rewrite !string_leb_iff. intros [H1 | ->] [H2 | ->]; auto.
  left. eapply string_ltb_trans; eassumption.
Qed.

Lemma date_le_total (a b : option string * Z) : date_le a b = true \/ date_le b a = true.
Proof. apply nulls_first_total, String.leb_total. Qed.

Lemma date_le_trans (a b c : option string * Z) :
  date_le a b = true -> date_le b c = true -> date_le a c = true.
Proof. apply nulls_first_trans, string_leb_trans. Qed.

(** ** The order [top_k] establishes *)

Lemma sorted_map {A B : Type} (R : B -> B -> Prop) (f : A -> B) (l : list A) :
  StronglySorted (fun a b => R (f a) (f b)) l -> StronglySorted R (map f l).
Proof.
  induction 1 as [|x l Hs IH Hx]; simpl; constructor; [exact IH|].
  rewrite Forall_forall in *. intros y Hy. apply in_map_iff in Hy.
  destruct Hy as (z & <- & Hz). now apply Hx.
Qed.

Lemma In_firstn {A : Type} (n : nat) (l : list A) (y : A) :
  In y (firstn n l) -> In y l.
Proof.
  revert l. induction n as [|n IH]; intros [|x l]; simpl; try tauto.
  intros [H | H]; [now left | right; now apply IH].
Qed.

Lemma sorted_firstn {A : Type} (R : A -> A -> Prop) (n : nat) (l : list A) :
  StronglySorted R l -> StronglySorted R (firstn n l).
Proof.
  intro H. revert n. induction H as [|x l Hs IH Hx]; intro n; destruct n; simpl;
    try constructor; [apply IH|].
  rewrite Forall_forall in *. intros y Hy. apply Hx. eapply In_firstn, Hy.
Qed.

Lemma Zgeb_total (a b : Z) : Z.geb a b = true \/ Z.geb b a = true.
Proof. rewrite !Z.geb_le. lia. Qed.

Lemma Zgeb_trans (a b c : Z) : Z.geb a b = true -> Z.geb b c = true -> Z.geb a c = true.
Proof. rewrite !Z.geb_le. lia. Qed.

Lemma head_length_accepts (e : Engine) (k : Z) :
  0 <= k <= idx_max e -> head_length e k = Return (Z.to_nat k).
Proof.
  intro H. unfold head_length.
  destruct (Z.ltb_spec k 0); [lia|]. destruct (Z.ltb_spec (idx_max e) k); [lia|]. reflexivity.
Qed.

Lemma head_length_refuses (e : Engine) (k : Z) :
  k < 0 \/ idx_max e < k -> head_length e k = Raise.
Proof.
  intro H. unfold head_length.
  destruct (Z.ltb_spec k 0); [reflexivity|]. destruct (Z.ltb_spec (idx_max e) k); [reflexivity|].
  lia.
Qed.

Lemma idx_max_32_bits (e : Engine) : 2 ^ 32 - 1 <= idx_max e.
Proof. unfold idx_max. destruct (idx_size e); lia. Qed.

(** X1: for every engine and every [k], the slots [top_k(k)] returns are in
    descending order of count (nulls first).  For a [k] from 0 to the largest
    row index of the engine there are [min(k, number of rows)] of them; for
    a negative [k] and for a [k] beyond the row index, [head(k)] raises and
    [top_k] returns its default, no slot. *)
Theorem top_k_sorted_by_count (e : Engine) (k : Z) (rows : frame) :
  exists out,
    top_k e k {| lf := Some (Return rows) |} = Return out
    /\ StronglySorted slot_count_ge out
    /\ (0 <= k <= idx_max e ->
        List.length out = Nat.min (Z.to_nat k) (List.length rows))
    /\ (k < 0 \/ idx_max e < k -> out = []).
Proof.
  unfold top_k, top_k_body. cbn [lf collect bind].
  destruct (Z_lt_le_dec k 0) as [Hneg | Hpos];
    [|destruct (Z_lt_le_dec (idx_max e) k) as [Hbig | Hfit]].
  - rewrite head_length_refuses by now left.
    exists []. repeat split; [constructor | lia].
  - rewrite head_length_refuses by now right.
    exists []. repeat split; [constructor | lia].
  - rewrite head_length_accepts by lia. cbn [bind try_except].
    eexists. split; [reflexivity|]. split; [|split].
    + apply sorted_firstn.
      apply (sorted_map slot_count_ge
               (fun r => {| RankedSlot.datetime :=
                              option_map Calendar.strftime_datetime (Row.dt r);
                            RankedSlot.count := Row.count r |})).
      apply (sort_sorted e count_desc_le).
      * intros a b. apply nulls_first_total, Zgeb_total.
      * intros a b c. apply nulls_first_trans, Zgeb_trans.
    + intros _. rewrite length_firstn, length_map.
      now rewrite (Permutation_length (sort_perm e count_desc_le rows)).
    + lia.
Qed.

(** ** [per_day] *)

Lemma per_day_rows (e : Engine) (rows : frame) :
  per_day e {| lf := Some (Return rows) |}
  = Return (map (fun g => {| DayTotal.date := fst g; DayTotal.total_cars := snd g |})
                (sort e date_le
                   (group_by_sum
                      (map (fun r => (option_map Calendar.strftime_date (Row.dt r), Row.count r))
                           rows)))).
Proof. reflexivity. Qed.

Lemma sum_total_cars_groups (groups : list (option string * Z)) :
  sum_total_cars
    (map (fun g => {| DayTotal.date := fst g; DayTotal.total_cars := snd g |}) groups)
  = zsum (map snd groups).
Proof. unfold sum_total_cars. now rewrite map_map. Qed.

Lemma zsum_group_by_sum (rows : list (option string * option Z)) :
  Int64.wrap (zsum (map snd (group_by_sum rows))) = col_sum (map snd rows).
Proof.
  rewrite group_by_sum_unfold, map_map. cbn [snd].
  rewrite <- (map_map (group_exact rows) Int64.wrap), wrap_zsum_wrap, groups_partition.
  reflexivity.
Qed.

(** C5, as stated, fails: two days of 2^62 cars each give per-day totals
    that add up to 2^63, while [total] returns -2^63. *)
Lemma per_day_sum_differs_from_total :
  exists days t,
    per_day order_keeping (loaded huge_days) = Return days
    /\ total (loaded huge_days) = Return t
    /\ sum_total_cars days = 2 ^ 63 /\ t = - 2 ^ 63
    /\ sum_total_cars days <> t.
Proof.
  eexists. eexists. split; [vm_compute; reflexivity|].
  split; [vm_compute; reflexivity|]. vm_compute. repeat split; discriminate.
Qed.

(** C5, amended: in every state of the analyzer, [total] is the sum of the
    [total_cars] of [per_day] reduced to the signed 64-bit range; the two are
    equal whenever that sum lies within the range. *)
Theorem per_day_adds_up_to_total (e : Engine) (self : TrafficAnalyzer) :
  exists days t,
    per_day e self = Return days
    /\ total self = Return t
    /\ Int64.wrap (sum_total_cars days) = t
    /\ (Int64.in_range (sum_total_cars days) -> sum_total_cars days = t).
Proof.
  assert (H : exists days t,
             per_day e self = Return days /\ total self = Return t
             /\ Int64.wrap (sum_total_cars days) = t).
  { destruct self as [[[rows|]|]].
    - eexists. eexists. split; [apply per_day_rows|]. split; [apply total_rows|].
      rewrite sum_total_cars_groups.
      rewrite (zsum_perm _ _ (Permutation_map snd (sort_perm e date_le _))).
      rewrite zsum_group_by_sum, map_map. reflexivity.
    - exists [], 0. repeat split.
    - exists [], 0. repeat split. }
  destruct H as (days & t & Hd & Ht & Hw). exists days, t.
  repeat split; try assumption.
  intro Hr. now rewrite <- Hw, wrap_in_range.
Qed.

Lemma dated_records (ds : list Rec.t) :
  map (fun r => (option_map Calendar.strftime_date (Row.dt r), Row.count r)) (map row_of ds)
  = map (fun r => (Some (date_of r), Some (Rec.count r))) ds.
Proof. now rewrite map_map. Qed.

Lemma group_exact_records (ds : list Rec.t) (d : string) :
  group_exact (map (fun r => (Some (date_of r), Some (Rec.count r))) ds) (Some d)
  = day_sum ds d.
Proof.
  unfold group_exact, day_sum, sum_counts, zsum, on_date.
  induction ds as [|r ds IH]; [reflexivity|].
  cbn [map filter fst date_key_eqb option_eqb]. unfold date_key_eqb, option_eqb.
  destruct (String.eqb (date_of r) d); cbn [map snd exact_sum fold_right Rec.count].
  - unfold exact_sum in IH. unfold date_key_eqb, option_eqb in IH. now rewrite IH.
  - exact IH.
Qed.

Lemma all_some {A : Type} (l : list (option A)) :
  (forall o, In o l -> exists a, o = Some a) -> exists l', l = map Some l'.
Proof.
  induction l as [|o l IH]; intro H.
  - now exists [].
  - destruct (H o (or_introl eq_refl)) as [a ->].
    destruct IH as [l' ->]; [intros o Ho; apply H; now right|].
    now exists (a :: l').
Qed.

Lemma strictly_sorted_dates (report : string -> Z) (dates : list string) :
  StronglySorted (fun a b => date_le a b = true) (map (fun d => (Some d, report d)) dates) ->
  NoDup dates ->
  StronglySorted string_lt dates.
Proof.
  induction dates as [|d dates IH]; simpl; intros Hs Hn; [constructor|].
  inversion Hs as [|? ? Hs' Hd]; subst. inversion Hn as [|? ? Hnotin Hn']; subst.
  constructor; [now apply IH|].
  rewrite Forall_forall in *. intros d' Hin.
  specialize (Hd _ (in_map _ _ _ Hin)). unfold date_le in Hd. simpl in Hd.
  apply string_leb_iff in Hd. destruct Hd as [Hd | ->]; [exact Hd | contradiction].
Qed.

Lemma per_day_loaded (e : Engine) (ds : list Rec.t) : per_day_outcome Int64.wrap e ds.
Proof.
  unfold per_day_outcome, loaded. rewrite per_day_rows, dated_records.
  set (dated := map (fun r => (Some (date_of r), Some (Rec.count r))) ds).
  assert (Hkeys : forall k, In k (distinct (map fst dated)) <->
                            exists r, In r ds /\ k = Some (date_of r)).
  { intro k. rewrite distinct_In. unfold dated. rewrite map_map. cbn [fst].
    rewrite in_map_iff. split; intros (r & H1 & H2); exists r; auto. }
  destruct (all_some (distinct (map fst dated))) as [keys Hk].
  { intros o Ho. apply Hkeys in Ho. destruct Ho as (r & _ & ->). eauto. }
  assert (Hnd : NoDup keys).
  { apply (NoDup_map_inv Some). rewrite <- Hk. apply distinct_NoDup. }
  assert (Hg : group_by_sum dated
               = map (fun d => (Some d, Int64.wrap (day_sum ds d))) keys).
  { rewrite group_by_sum_unfold, Hk, map_map. apply map_ext. intro d.
    unfold dated. now rewrite group_exact_records. }
  rewrite Hg.
  pose proof (sort_perm e date_le (map (fun d => (Some d, Int64.wrap (day_sum ds d))) keys))
    as Hp.
  apply Permutation_map_inv in Hp. destruct Hp as (dates & Hd & Hperm).
  exists dates. rewrite Hd, map_map. cbn [fst snd]. split; [reflexivity|]. split.
  - apply strictly_sorted_dates with (report := fun d => Int64.wrap (day_sum ds d)).
    + rewrite <- Hd. apply sort_sorted; [apply date_le_total | apply date_le_trans].
    + eapply Permutation_NoDup; eassumption.
  - intro d. split.
    + intro Hin. apply (Permutation_in _ (Permutation_sym Hperm)) in Hin.
      apply (in_map Some) in Hin. rewrite <- Hk in Hin. apply Hkeys in Hin.
      destruct Hin as (r & Hr & E). exists r. split; [exact Hr | congruence].
    + intros (r & Hr & <-). apply (Permutation_in _ Hperm).
      assert (Hin : In (Some (date_of r)) (map Some keys)).
      { rewrite <- Hk. apply Hkeys. eauto. }
      apply in_map_iff in Hin. destruct Hin as (d & E & Hin). congruence.
Qed.

(** C4, as stated, fails: the two records of [huge_pair] fall on one day and
    their counts add up to 2^63; [per_day] reports -2^63 cars for that day. *)
Lemma per_day_total_wraps_at_64_bits :
  ~ per_day_outcome (fun z => z) order_keeping huge_pair.
Proof.
  intros (dates & H & _ & _).
  assert (E : per_day order_keeping (loaded huge_pair)
              = Return [{| DayTotal.date := Some "2021-12-01"%string;
                           DayTotal.total_cars := - 2 ^ 63 |}])
    by (vm_compute; reflexivity).
  rewrite E in H. injection H as H.
  destruct dates as [|d [|d' dates]]; cbn [map] in H; [congruence| |congruence].
  injection H as Hd Ht. subst d. clear E. vm_compute in Ht. discriminate Ht.
Qed.

(** C4, amended: [per_day] returns exactly one entry per date string of the
    dataset, in strictly ascending order of the date strings, whose
    [total_cars] is the sum of the counts of the records of that date reduced
    to the signed 64-bit range, hence the literal sum whenever every day's
    sum fits the range; it returns the empty list for an absent and for an
    empty dataset. *)
Theorem per_day_groups_by_date (e : Engine) (ds : list Rec.t) :
  per_day_outcome Int64.wrap e ds
  /\ (day_sums_fit ds -> per_day_outcome (fun z => z) e ds)
  /\ per_day e init = Return []
  /\ per_day e (loaded []) = Return [].
Proof.
  split; [apply per_day_loaded|]. split; [|split; [reflexivity|]].
  - intro Hfit. destruct (per_day_loaded e ds) as (dates & H & Hs & Hd).
    exists dates. split; [|split; assumption].
    rewrite H. f_equal. apply map_ext_in. intros d Hin.
    apply Hd in Hin. destruct Hin as (r & Hr & <-).
    unfold day_sums_fit in Hfit. rewrite Forall_forall in Hfit.
    now rewrite wrap_in_range by now apply Hfit.
  - destruct (per_day_loaded e []) as (dates & H & _ & Hd).
    destruct dates as [|d dates]; [exact H|].
    destruct (proj1 (Hd d) (or_introl eq_refl)) as (r & [] & _).
Qed.

Lemma per_day_groups_by_date_witness :
  day_sums_fit one_window /\ per_day_outcome (fun z => z) order_keeping one_window.
Proof.
  assert (H : day_sums_fit one_window).
  { unfold day_sums_fit, one_window. repeat constructor; vm_compute; discriminate. }
  split; [exact H|].
  exact (proj1 (proj2 (per_day_groups_by_date order_keeping one_window)) H).
Defined.

(** ** Shifted columns and candidate windows *)

Lemma nth_shift_back {A : Type} (n : nat) (col : list (option A)) (i : nat) :
  nth i (shift_back n col) None = nth (i + n) col None.
Proof.
  unfold shift_back. destruct (Nat.ltb_spec i (List.length col)) as [Hlt | Hge].
  - rewrite (nth_indep _ None (nth (List.length col + n) col None)).
    + rewrite (map_nth (fun i => nth (i + n) col None)), seq_nth by assumption.
      reflexivity.
    + now rewrite length_map, length_seq.
  - rewrite !nth_overflow; [reflexivity | lia |].
    rewrite length_map, length_seq. lia.
Qed.

Lemma with_shifted_at (s : frame) :
  with_shifted s = map (shifted_at s) (seq 0 (List.length s)).
Proof.
  unfold with_shifted, shifted_at. apply map_ext. intro i.
  now rewrite !nth_shift_back.
Qed.

Lemma filter_map_swap {A B : Type} (p : B -> bool) (f : A -> B) (l : list A) :
  filter p (map f l) = map f (filter (fun x => p (f x)) l).
Proof.
  induction l as [|x l IH]; simpl; [reflexivity|].
  destruct (p (f x)); simpl; now rewrite IH.
Qed.

Lemma candidates_by_index (e : Engine) (rows : frame) :
  candidates e rows
  = map (candidate_at (sort e dt_le rows)) (candidate_indices (sort e dt_le rows)).
Proof.
  unfold candidates, candidate_indices, candidate_at.
  now rewrite with_shifted_at, filter_map_swap, map_map.
Qed.

(** A cell of a column is present exactly when its row exists and holds it. *)
Lemma cell_present {A B : Type} (f : A -> option B) (s : list A) (i : nat) (v : B) :
  nth i (map f s) None = Some v <-> exists x, nth_error s i = Some x /\ f x = Some v.
Proof.
  revert i. induction s as [|y s IH]; intro i; destruct i as [|i]; simpl.
  - split; [discriminate | intros (x & H & _); discriminate].
  - split; [discriminate | intros (x & H & _); discriminate].
  - split; [intro H; now exists y | intros (x & H & Hx); congruence].
  - apply IH.
Qed.

Lemma row_of_inj (r r' : Rec.t) : row_of r = row_of r' -> r = r'.
Proof. destruct r, r'. unfold row_of. simpl. congruence. Qed.

Lemma sum_count_records (c0 c1 c2 : Z) :
  opt_add (opt_add (Some c0) (Some c1)) (Some c2) = Some (Int64.wrap (c0 + c1 + c2)).
Proof. simpl. unfold Int64.add. now rewrite wrap_add_l. Qed.

(** The rows of the sorted dataset are rows of records of the dataset. *)
Lemma by_dt_rows (e : Engine) (ds : list Rec.t) (i : nat) (x : Row.t) :
  nth_error (by_dt e ds) i = Some x -> exists r, In r ds /\ x = row_of r.
Proof.
  intro H. apply nth_error_In in H.
  apply (Permutation_in _ (sort_perm e dt_le _)) in H.
  apply in_map_iff in H. destruct H as (r & <- & Hr). eauto.
Qed.

Lemma by_dt_datetime (e : Engine) (ds : list Rec.t) (i : nat) (r : Rec.t) :
  datetimes ds -> nth_error (by_dt e ds) i = Some (row_of r) ->
  Calendar.in_datetime_range (Rec.timestamp r).
Proof.
  intros Hd H. destruct (by_dt_rows _ _ _ _ H) as (r' & Hin & E).
  apply row_of_inj in E. subst r'. unfold datetimes in Hd.
  rewrite Forall_forall in Hd. now apply Hd.
Qed.

(** A row passes the filter only with its three timestamps present and a
    half-hour apart in 64-bit arithmetic. *)
Lemma contiguous_inv (w : Shifted.t) :
  holds (Shifted.contiguous w) = true ->
  exists t0 t1 t2,
    Shifted.dt w = Some t0 /\ Shifted.dt1 w = Some t1 /\ Shifted.dt2 w = Some t2
    /\ Int64.sub t1 t0 = Calendar.half_hour /\ Int64.sub t2 t1 = Calendar.half_hour.
Proof.
  unfold Shifted.contiguous.
  destruct (Shifted.dt w) as [t0|], (Shifted.dt1 w) as [t1|], (Shifted.dt2 w) as [t2|];
    cbn [opt_sub opt_eqb option_map];
    try (destruct (Int64.sub t1 t0 =? Calendar.half_hour); discriminate);
    try (destruct (Int64.sub t2 t1 =? Calendar.half_hour); discriminate);
    try discriminate.
  destruct (Z.eqb_spec (Int64.sub t1 t0) Calendar.half_hour) as [E1|];
    destruct (Z.eqb_spec (Int64.sub t2 t1) Calendar.half_hour) as [E2|];
    try discriminate.
  intros _. exists t0, t1, t2. auto.
Qed.

(** A window that passes the filter is a qualifying window. *)
Lemma candidate_qualifies (e : Engine) (ds : list Rec.t) (i : nat) :
  datetimes ds ->
  holds (Shifted.contiguous (shifted_at (by_dt e ds) i)) = true ->
  exists r0 r1 r2, qualifying (by_dt e ds) i r0 r1 r2.
Proof.
  intros Hd H. apply contiguous_inv in H.
  destruct H as (t0 & t1 & t2 & E0 & E1 & E2 & S1 & S2).
  unfold shifted_at in E0, E1, E2.
  cbn [Shifted.dt Shifted.dt1 Shifted.dt2] in E0, E1, E2.
  apply cell_present in E0, E1, E2.
  destruct E0 as (x0 & N0 & D0), E1 as (x1 & N1 & D1), E2 as (x2 & N2 & D2).
  destruct (by_dt_rows _ _ _ _ N0) as (r0 & _ & ->).
  destruct (by_dt_rows _ _ _ _ N1) as (r1 & _ & ->).
  destruct (by_dt_rows _ _ _ _ N2) as (r2 & _ & ->).
  cbn [row_of Row.dt] in D0, D1, D2.
  injection D0 as <-. injection D1 as <-. injection D2 as <-.
  pose proof (by_dt_datetime _ _ _ _ Hd N0) as R0.
  pose proof (by_dt_datetime _ _ _ _ Hd N1) as R1.
  pose proof (by_dt_datetime _ _ _ _ Hd N2) as R2.
  rewrite sub_datetimes in S1, S2 by assumption.
  exists r0, r1, r2. unfold qualifying. auto.
Qed.

(** A qualifying window passes the filter, and its candidate row is
    [summed]. *)
Lemma qualifying_candidate (e : Engine) (ds : list Rec.t) (i : nat) (r0 r1 r2 : Rec.t) :
  datetimes ds ->
  qualifying (by_dt e ds) i r0 r1 r2 ->
  In i (candidate_indices (by_dt e ds))
  /\ candidate_at (by_dt e ds) i = summed r0 r1 r2.
Proof.
  intros Hd (N0 & N1 & N2 & S1 & S2). set (s := by_dt e ds) in *.
  pose proof (by_dt_datetime _ _ _ _ Hd N0) as R0.
  pose proof (by_dt_datetime _ _ _ _ Hd N1) as R1.
  pose proof (by_dt_datetime _ _ _ _ Hd N2) as R2.
  assert (C : forall (A : Type) (f : Row.t -> option A) (k : nat) (r : Rec.t) (v : A),
             nth_error s k = Some (row_of r) -> f (row_of r) = Some v ->
             nth k (map f s) None = Some v).
  { intros A f k r v Hn Hf. apply cell_present. eauto. }
  assert (E : shifted_at s i
              = {| Shifted.dt := Some (Rec.timestamp r0);
                   Shifted.dt1 := Some (Rec.timestamp r1);
                   Shifted.dt2 := Some (Rec.timestamp r2);
                   Shifted.count := Some (Rec.count r0);
                   Shifted.count1 := Some (Rec.count r1);
                   Shifted.count2 := Some (Rec.count r2) |}).
  { unfold shifted_at.
    rewrite (C _ Row.dt i r0 (Rec.timestamp r0)), (C _ Row.dt (i + 1)%nat r1 (Rec.timestamp r1)),
      (C _ Row.dt (i + 2)%nat r2 (Rec.timestamp r2)), (C _ Row.count i r0 (Rec.count r0)),
      (C _ Row.count (i + 1)%nat r1 (Rec.count r1)),
      (C _ Row.count (i + 2)%nat r2 (Rec.count r2)); auto. }
  split.
  - unfold candidate_indices. apply filter_In. split.
    + apply in_seq. split; [lia|]. simpl. apply nth_error_Some. fold s. congruence.
    + fold s. rewrite E. unfold Shifted.contiguous. cbn.
      rewrite !sub_datetimes by assumption. rewrite S1, S2, Z.eqb_refl. reflexivity.
  - unfold candidate_at, summed_of. rewrite E. unfold Shifted.sum_count.
    cbn [Shifted.dt Shifted.dt1 Shifted.dt2 Shifted.count Shifted.count1 Shifted.count2].
    unfold summed, sum3. now rewrite sum_count_records.
Qed.

Lemma sum_le_total (a b : Summed.t) : sum_le a b = true \/ sum_le b a = true.
Proof. apply nulls_first_total, Zleb_total. Qed.

Lemma sum_le_trans (a b c : Summed.t) :
  sum_le a b = true -> sum_le b c = true -> sum_le a c = true.
Proof. apply nulls_first_trans, Zleb_trans. Qed.

Lemma dt_le_total (a b : Row.t) : dt_le a b = true \/ dt_le b a = true.
Proof. apply nulls_first_total, Zleb_total. Qed.

Lemma dt_le_trans (a b c : Row.t) : dt_le a b = true -> dt_le b c = true -> dt_le a c = true.
Proof. apply nulls_first_trans, Zleb_trans. Qed.

Lemma py_isoformat_datetime (t : Z) :
  Calendar.in_datetime_range t -> py_isoformat (Some t) = Return (Calendar.isoformat t).
Proof.
  unfold Calendar.in_datetime_range, py_isoformat, Calendar.in_datetime_rangeb.
  intros [H1 H2]. apply Z.leb_le in H1, H2. now rewrite H1, H2.
Qed.

(** What [min_window_sum] returns when [x] heads the sorted candidates. *)
Lemma min_window_sum_of_head (e : Engine) (ds : list Rec.t) (r0 r1 r2 : Rec.t)
      (rest : list Summed.t) :
  Calendar.in_datetime_range (Rec.timestamp r0) ->
  Calendar.in_datetime_range (Rec.timestamp r1) ->
  Calendar.in_datetime_range (Rec.timestamp r2) ->
  sort e sum_le (candidates e (map row_of ds)) = summed r0 r1 r2 :: rest ->
  min_window_sum e (loaded ds)
  = Return (Some (window_of r0 r1 r2 (Int64.wrap (sum3 r0 r1 r2)))).
Proof.
  intros R0 R1 R2 H. unfold min_window_sum, min_window_sum_body, loaded. cbn [lf collect bind].
  rewrite H. cbn [firstn summed Summed.dt Summed.dt1 Summed.dt2 Summed.sum_count].
  rewrite !py_isoformat_datetime by assumption. reflexivity.
Qed.

Lemma min_window_sum_of_nil (e : Engine) (ds : list Rec.t) :
  sort e sum_le (candidates e (map row_of ds)) = [] ->
  min_window_sum e (loaded ds) = Return None.
Proof.
  intro H. unfold min_window_sum, min_window_sum_body, loaded. cbn [lf collect bind].
  now rewrite H.
Qed.

(** In a frame of records, a qualifying window is three records of the
    list at consecutive places, the last of them inside the list. *)
Lemma qualifying_records (l : list Rec.t) (i : nat) (r0 r1 r2 : Rec.t) :
  qualifying (map row_of l) i r0 r1 r2 ->
  nth_error l i = Some r0 /\ nth_error l (i + 1) = Some r1 /\ nth_error l (i + 2) = Some r2
  /\ (i + 2 < List.length l)%nat.
Proof.
  intros (N0 & N1 & N2 & _). rewrite nth_error_map in N0, N1, N2.
  assert (Hlt : (i + 2 < List.length l)%nat).
  { apply nth_error_Some. destruct (nth_error l (i + 2)); [discriminate | discriminate N2]. }
  destruct (nth_error l i) as [x0|]; [|discriminate N0].
  destruct (nth_error l (i + 1)) as [x1|]; [|discriminate N1].
  destruct (nth_error l (i + 2)) as [x2|]; [|discriminate N2].
  cbn [option_map] in N0, N1, N2.
  assert (E0 : row_of x0 = row_of r0) by congruence.
  assert (E1 : row_of x1 = row_of r1) by congruence.
  assert (E2 : row_of x2 = row_of r2) by congruence.
  apply row_of_inj in E0, E1, E2. subst. auto.
Qed.

(** ** [min_window_sum] *)

Lemma min_window_sum_loaded (e : Engine) (ds : list Rec.t) :
  datetimes ds -> min_window_outcome Int64.wrap e ds.
Proof.
  intro Hd. unfold min_window_outcome.
  destruct (sort e sum_le (candidates e (map row_of ds))) as [|x rest] eqn:Hsort.
  - right. split; [|now apply min_window_sum_of_nil].
    intros i r0 r1 r2 Hq.
    destruct (qualifying_candidate _ _ _ _ _ _ Hd Hq) as [Hin _].
    apply sort_nil in Hsort. rewrite candidates_by_index in Hsort.
    apply map_eq_nil in Hsort. unfold by_dt in Hin. rewrite Hsort in Hin. exact Hin.
  - left.
    destruct (sort_head_least e sum_le sum_le_total sum_le_trans _ _ _ Hsort) as [Hin Hmin].
    rewrite candidates_by_index in Hin. apply in_map_iff in Hin.
    destruct Hin as (i & Hx & Hi).
    apply filter_In in Hi. destruct Hi as [_ Hi].
    destruct (candidate_qualifies e ds i Hd Hi) as (r0 & r1 & r2 & Hq).
    destruct (qualifying_candidate _ _ _ _ _ _ Hd Hq) as [_ Hc].
    unfold by_dt in Hc. rewrite Hc in Hx. subst x.
    exists i, r0, r1, r2. split; [exact Hq|]. split.
    + destruct Hq as (N0 & N1 & N2 & _).
      eapply min_window_sum_of_head; eauto using by_dt_datetime.
    + intros j q0 q1 q2 Hj.
      destruct (qualifying_candidate _ _ _ _ _ _ Hd Hj) as [Hjin Hjc].
      assert (Hinc : In (summed q0 q1 q2) (candidates e (map row_of ds))).
      { rewrite candidates_by_index. apply in_map_iff. exists j. split; assumption. }
      specialize (Hmin _ Hinc). unfold sum_le in Hmin. cbn in Hmin.
      now apply Z.leb_le.
Qed.

Lemma min_window_literal (e : Engine) (ds : list Rec.t) :
  window_sums_fit e ds ->
  min_window_outcome Int64.wrap e ds -> min_window_outcome (fun z => z) e ds.
Proof.
  unfold min_window_outcome. intros Hfit [(i & r0 & r1 & r2 & Hq & Hres & Hmin) | H].
  - left. exists i, r0, r1, r2. split; [exact Hq|].
    rewrite (wrap_in_range _ (Hfit _ _ _ _ Hq)) in *. split; [exact Hres|].
    intros j q0 q1 q2 Hj. specialize (Hmin _ _ _ _ Hj).
    now rewrite (wrap_in_range _ (Hfit _ _ _ _ Hj)) in Hmin.
  - now right.
Qed.

Lemma by_dt_huge_window : by_dt order_keeping huge_window = map row_of huge_window.
Proof. vm_compute. reflexivity. Qed.

(** C1, as stated, fails: the three records of [huge_window] form the only
    qualifying window, their counts add up to 3 * 2^62, and the dictionary
    returned has [total_cars] = -2^62. *)
Lemma min_window_sum_wraps_at_64_bits :
  ~ min_window_outcome (fun z => z) order_keeping huge_window.
Proof.
  assert (E : min_window_sum order_keeping (loaded huge_window)
              = Return (Some {| Window.datetime_range :=
                                  ["2021-12-01T05:00:00"; "2021-12-01T05:30:00";
                                   "2021-12-01T06:00:00"]%string;
                                Window.total_cars := Some (- 2 ^ 62) |}))
    by (vm_compute; reflexivity).
  unfold min_window_outcome. rewrite E, by_dt_huge_window.
  intros [(i & r0 & r1 & r2 & Hq & Hres & _) | [_ Hres]]; [|discriminate Hres].
  apply qualifying_records in Hq. destruct Hq as (N0 & N1 & N2 & Hlt).
  cbn [huge_window List.length] in Hlt.
  assert (i = 0%nat) by lia. subst i.
  cbn [huge_window nth_error Nat.add] in N0, N1, N2.
  injection N0 as <-. injection N1 as <-. injection N2 as <-.
  clear E. vm_compute in Hres. discriminate Hres.
Qed.

(** C1, amended: for a dataset whose timestamps are datetimes,
    [min_window_sum] returns a window of three records that are consecutive
    in the frame sorted by timestamp and step by exactly 30 minutes, whose
    [total_cars] is the sum of the three counts reduced to the signed 64-bit
    range and is least among the qualifying windows; [total_cars] is the
    literal sum, least among the literal sums, whenever the sum of every
    qualifying window fits the range.  It returns the empty dictionary when
    no window qualifies, for an empty and for an absent dataset. *)
Theorem min_window_sum_least_window (e : Engine) (ds : list Rec.t) :
  datetimes ds ->
  min_window_outcome Int64.wrap e ds
  /\ (window_sums_fit e ds -> min_window_outcome (fun z => z) e ds)
  /\ min_window_sum e init = Return None
  /\ min_window_sum e (loaded []) = Return None.
Proof.
  intro Hd. split; [now apply min_window_sum_loaded|].
  split; [intro Hfit; now apply min_window_literal, min_window_sum_loaded|].
  split; [reflexivity|].
  destruct (min_window_sum_loaded e [] (Forall_nil _))
    as [(i & r0 & r1 & r2 & (N0 & _) & _) | [_ H]]; [|exact H].
  apply nth_error_In in N0.
  apply (Permutation_in _ (sort_perm e dt_le _)) in N0. destruct N0.
Qed.

Lemma one_window_datetimes : datetimes one_window.
Proof.
  unfold datetimes, one_window. repeat constructor; vm_compute; discriminate.
Qed.

Lemma by_dt_one_window : by_dt order_keeping one_window = map row_of one_window.
Proof. vm_compute. reflexivity. Qed.

Lemma one_window_fits : window_sums_fit order_keeping one_window.
Proof.
  unfold window_sums_fit. rewrite by_dt_one_window.
  intros i r0 r1 r2 Hq.
  apply qualifying_records in Hq. destruct Hq as (N0 & N1 & N2 & Hlt).
  cbn [one_window List.length] in Hlt.
  assert (i = 0%nat) by lia. subst i.
  cbn [one_window nth_error Nat.add] in N0, N1, N2.
  injection N0 as <-. injection N1 as <-. injection N2 as <-.
  vm_compute. split; discriminate.
Qed.

Lemma min_window_sum_least_window_witness :
  datetimes one_window
  /\ window_sums_fit order_keeping one_window
  /\ min_window_outcome (fun z => z) order_keeping one_window.
Proof.
  split; [exact one_window_datetimes|]. split; [exact one_window_fits|].
  exact (proj1 (proj2 (min_window_sum_least_window order_keeping one_window
                         one_window_datetimes))
               one_window_fits).
Defined.

(** ** The tie-break of [min_window_sum] *)

Lemma seq_sorted (a n : nat) : StronglySorted lt (seq a n).
Proof.
  revert a. induction n as [|n IH]; intro a; simpl; constructor.
  - apply IH.
  - apply Forall_forall. intros j Hj. apply in_seq in Hj. lia.
Qed.

Lemma filter_sorted {A : Type} (R : A -> A -> Prop) (p : A -> bool) (l : list A) :
  StronglySorted R l -> StronglySorted R (filter p l).
Proof.
  induction 1 as [|x l Hs IH Hx]; simpl; [constructor|].
  destruct (p x); [|exact IH]. constructor; [exact IH|].
  rewrite Forall_forall in *. intros y Hy. apply filter_In in Hy. now apply Hx.
Qed.

Lemma sorted_after {A : Type} (R : A -> A -> Prop) (l1 l2 : list A) (x : A) :
  StronglySorted R (l1 ++ x :: l2) -> Forall (R x) l2.
Proof.
  induction l1 as [|y l1 IH]; simpl; intro H; inversion H; subst; auto.
Qed.

Lemma sorted_nth_error {A : Type} (R : A -> A -> Prop) (l : list A) :
  StronglySorted R l ->
  forall i j a b, (i < j)%nat -> nth_error l i = Some a -> nth_error l j = Some b -> R a b.
Proof.
  induction 1 as [|x l Hs IH Hx]; intros i j a b Hij Hi Hj.
  - destruct i; discriminate.
  - destruct j as [|j]; [lia|]. destruct i as [|i]; simpl in Hi, Hj.
    + injection Hi as <-. rewrite Forall_forall in Hx.
      apply Hx. eapply nth_error_In, Hj.
    + apply (IH i j); [lia | assumption | assumption].
Qed.

(** With an engine that keeps rows of equal sum in incoming order, the
    window returned is the first least one in timestamp order. *)
Lemma min_window_sum_earliest (e : Engine) (ds : list Rec.t) :
  keeps_sum_order e -> datetimes ds -> window_sums_fit e ds ->
  earliest_window_outcome e ds.
Proof.
  intros Hkeep Hd Hfit. unfold earliest_window_outcome.
  destruct (sort e sum_le (candidates e (map row_of ds))) as [|x rest] eqn:Hsort.
  - right. split; [|now apply min_window_sum_of_nil].
    intros i r0 r1 r2 Hq.
    destruct (qualifying_candidate _ _ _ _ _ _ Hd Hq) as [Hin _].
    apply sort_nil in Hsort. rewrite candidates_by_index in Hsort.
    apply map_eq_nil in Hsort. unfold by_dt in Hin. rewrite Hsort in Hin. exact Hin.
  - left. pose proof Hsort as Hstable. unfold sort in Hstable. rewrite Hkeep in Hstable.
    destruct (stable_sort_head sum_le sum_le_total sum_le_trans _ _ _ Hstable)
      as (l1 & l2 & Hsplit & Hbefore & Hafter).
    rewrite candidates_by_index in Hsplit. fold (by_dt e ds) in Hsplit.
    apply map_eq_app in Hsplit. destruct Hsplit as (I1 & I' & HI & Hl1 & Hl').
    apply map_eq_cons in Hl'. destruct Hl' as (i & I2 & -> & Hx & Hl2).
    assert (Hi : In i (candidate_indices (by_dt e ds))).
    { rewrite HI. apply in_or_app. right. now left. }
    pose proof Hi as Hi'. apply filter_In in Hi'. destruct Hi' as [_ Hi'].
    destruct (candidate_qualifies e ds i Hd Hi') as (r0 & r1 & r2 & Hq).
    destruct (qualifying_candidate _ _ _ _ _ _ Hd Hq) as [_ Hc].
    rewrite Hc in Hx. subst x.
    exists i, r0, r1, r2. split; [exact Hq|]. split.
    + rewrite <- (wrap_in_range _ (Hfit _ _ _ _ Hq)).
      destruct Hq as (N0 & N1 & N2 & _).
      eapply min_window_sum_of_head; eauto using by_dt_datetime.
    + intros j q0 q1 q2 Hj.
      destruct (qualifying_candidate _ _ _ _ _ _ Hd Hj) as [Hjin Hjc].
      pose proof (wrap_in_range _ (Hfit _ _ _ _ Hq)) as Wr.
      pose proof (wrap_in_range _ (Hfit _ _ _ _ Hj)) as Wq.
      rewrite HI in Hjin. apply in_app_or in Hjin.
      rewrite Forall_forall in Hbefore, Hafter.
      assert (Hle : forall y, y = summed q0 q1 q2 -> sum_le (summed r0 r1 r2) y = true ->
                              sum3 r0 r1 r2 <= sum3 q0 q1 q2).
      { intros y -> H. unfold sum_le in H. cbn in H. apply Z.leb_le in H. lia. }
      destruct Hjin as [Hj1 | [<- | Hj2]].
      * assert (Hin1 : In (summed q0 q1 q2) l1).
        { rewrite <- Hl1, <- Hjc. now apply in_map. }
        specialize (Hbefore _ Hin1). unfold sum_le in Hbefore. cbn in Hbefore.
        apply Z.leb_gt in Hbefore. split; [lia|]. intro. lia.
      * destruct Hq as (N0 & _), Hj as (M0 & _).
        assert (M : row_of r0 = row_of q0) by congruence.
        apply row_of_inj in M. subst q0.
        assert (E : summed r0 r1 r2 = summed r0 q1 q2) by congruence.
        apply (f_equal Summed.sum_count) in E. cbn [summed Summed.sum_count] in E.
        assert (E3 : Int64.wrap (sum3 r0 r1 r2) = Int64.wrap (sum3 r0 q1 q2)) by congruence.
        rewrite Wr, Wq in E3. split; [lia | intros _; lia].
      * assert (Hin2 : In (summed q0 q1 q2) l2).
        { rewrite <- Hl2, <- Hjc. now apply in_map. }
        split; [apply (Hle _ eq_refl), Hafter, Hin2|]. intros _.
        assert (Hij : (i < j)%nat).
        { pose proof (filter_sorted lt
                        (fun i => holds (Shifted.contiguous (shifted_at (by_dt e ds) i)))
                        _ (seq_sorted 0 (List.length (by_dt e ds)))) as Hs.
          fold (candidate_indices (by_dt e ds)) in Hs. rewrite HI in Hs.
          apply sorted_after in Hs. rewrite Forall_forall in Hs. now apply Hs. }
        destruct Hq as (N0 & _), Hj as (M0 & _).
        pose proof (sorted_nth_error _ _
                      (sort_sorted e dt_le dt_le_total dt_le_trans (map row_of ds))
                      i j _ _ Hij N0 M0) as Hdt.
        unfold dt_le in Hdt. cbn in Hdt. now apply Z.leb_le.
Qed.

Lemma by_dt_tied_windows (e : Engine) :
  e = order_keeping \/ e = order_reversing ->
  by_dt e tied_windows = map row_of tied_windows.
Proof. intros [-> | ->]; vm_compute; reflexivity. Qed.

Lemma tied_windows_qualify_at_0 (e : Engine) :
  e = order_keeping \/ e = order_reversing ->
  qualifying (by_dt e tied_windows) 0
    (rec at_0500 1) (rec (at_0500 + Calendar.half_hour) 1)
    (rec (at_0500 + 2 * Calendar.half_hour) 1).
Proof.
  intro He. unfold qualifying. rewrite (by_dt_tied_windows e He).
  repeat split.
Qed.

(** C6, as stated, fails: the code asks the engine for no order among rows
    of equal [sum_count]; with an engine that hands ties back in reverse, the
    window starting at 05:30 is returned although the window starting at
    05:00 has the same sum. *)
Lemma min_window_sum_tie_not_earliest :
  ~ earliest_window_outcome order_reversing tied_windows.
Proof.
  assert (E : min_window_sum order_reversing (loaded tied_windows)
              = Return (Some {| Window.datetime_range :=
                                  ["2021-12-01T05:30:00"; "2021-12-01T06:00:00";
                                   "2021-12-01T06:30:00"]%string;
                                Window.total_cars := Some 3 |}))
    by (vm_compute; reflexivity).
  pose proof (tied_windows_qualify_at_0 order_reversing (or_intror eq_refl)) as Q0.
  unfold earliest_window_outcome. rewrite E.
  intros [(i & r0 & r1 & r2 & Hq & Hres & Hmin) | [_ Hres]]; [|discriminate Hres].
  destruct (Hmin _ _ _ _ Q0) as [_ Hearly].
  rewrite (by_dt_tied_windows _ (or_intror eq_refl)) in Hq.
  apply qualifying_records in Hq. destruct Hq as (N0 & N1 & N2 & Hlt).
  cbn [tied_windows List.length] in Hlt.
  assert (Hi : i = 0%nat \/ i = 1%nat) by lia.
  destruct Hi as [-> | ->];
    cbn [tied_windows nth_error Nat.add] in N0, N1, N2;
    injection N0 as <-; injection N1 as <-; injection N2 as <-.
  - clear E Q0 Hearly Hmin. vm_compute in Hres. discriminate Hres.
  - assert (H : Rec.timestamp (rec (at_0500 + Calendar.half_hour) 1)
                <= Rec.timestamp (rec at_0500 1)) by (apply Hearly; reflexivity).
    vm_compute in H. now apply H.
Qed.

(** C6, amended: when several qualifying windows tie on the least sum,
    [min_window_sum] returns the one that starts earliest provided the
    engine's sort keeps rows of equal [sum_count] in their incoming order
    (which the code does not ask for: [maintain_order] is left at its
    default), for a dataset whose timestamps are datetimes and whose window
    sums fit the signed 64-bit range. *)
Theorem min_window_sum_earliest_when_order_kept (e : Engine) (ds : list Rec.t) :
  keeps_sum_order e -> datetimes ds -> window_sums_fit e ds ->
  earliest_window_outcome e ds.
Proof. apply min_window_sum_earliest. Qed.

Lemma order_keeping_keeps : keeps_sum_order order_keeping.
Proof. intro l. reflexivity. Qed.

Lemma tied_windows_datetimes : datetimes tied_windows.
Proof.
  unfold datetimes, tied_windows. repeat constructor; vm_compute; discriminate.
Qed.

Lemma tied_windows_fit : window_sums_fit order_keeping tied_windows.
Proof.
  unfold window_sums_fit. rewrite (by_dt_tied_windows _ (or_introl eq_refl)).
  intros i r0 r1 r2 Hq.
  apply qualifying_records in Hq. destruct Hq as (N0 & N1 & N2 & Hlt).
  cbn [tied_windows List.length] in Hlt.
  assert (Hi : i = 0%nat \/ i = 1%nat) by lia.
  destruct Hi as [-> | ->];
    cbn [tied_windows nth_error Nat.add] in N0, N1, N2;
    injection N0 as <-; injection N1 as <-; injection N2 as <-;
    vm_compute; split; discriminate.
Qed.

Lemma min_window_sum_earliest_when_order_kept_witness :
  keeps_sum_order order_keeping
  /\ datetimes tied_windows
  /\ window_sums_fit order_keeping tied_windows
  /\ earliest_window_outcome order_keeping tied_windows.
Proof.
  split; [exact order_keeping_keeps|]. split; [exact tied_windows_datetimes|].
  split; [exact tied_windows_fit|].
  exact (min_window_sum_earliest_when_order_kept order_keeping tied_windows
           order_keeping_keeps tied_windows_datetimes tied_windows_fit).
Defined.

(** With the order-keeping engine the window of [tied_windows] returned is
    the one starting at 05:00. *)
Example tied_windows_order_kept :
  min_window_sum order_keeping (loaded tied_windows)
  = Return (Some {| Window.datetime_range :=
                      ["2021-12-01T05:00:00"; "2021-12-01T05:30:00";
                       "2021-12-01T06:00:00"]%string;
                    Window.total_cars := Some 3 |}).
Proof. vm_compute. reflexivity. Qed.

(** * Part III: further properties of the code *)

(** ** Sorted permutations *)

(** Two sorted arrangements of the same rows are the same list, when rows
    that compare equal both ways are equal. *)
Lemma sorted_perm_unique {A : Type} (le : A -> A -> bool) (l1 : list A) :
  forall l2,
    (forall a b, In a l1 -> In b l1 -> le a b = true -> le b a = true -> a = b) ->
    (forall a, le a a = true) ->
    StronglySorted (fun a b => le a b = true) l1 ->
    StronglySorted (fun a b => le a b = true) l2 ->
    Permutation l1 l2 ->
    l1 = l2.
Proof.
  induction l1 as [|x l1 IH]; intros l2 Hanti Hrefl H1 H2 Hp.
  - apply Permutation_nil in Hp. now subst.
  - destruct l2 as [|y l2]; [apply Permutation_sym, Permutation_nil in Hp; discriminate|].
    inversion H1 as [|? ? H1' Hx]; subst. inversion H2 as [|? ? H2' Hy]; subst.
    rewrite Forall_forall in Hx, Hy.
    assert (Hyin : In y (x :: l1)).
    { apply (Permutation_in _ (Permutation_sym Hp)). now left. }
    assert (Hxin : In x (y :: l2)).
    { apply (Permutation_in _ Hp). now left. }
    assert (Hxy : le x y = true).
    { destruct Hyin as [<- | Hin]; [apply Hrefl | now apply Hx]. }
    assert (Hyx : le y x = true).
    { destruct Hxin as [<- | Hin]; [apply Hrefl | now apply Hy]. }
    assert (x = y) by (apply Hanti; auto; now left). subst y.
    f_equal. apply IH; auto.
    + intros a b Ha Hb. apply Hanti; now right.
    + eapply Permutation_cons_inv, Hp.
Qed.





(** ** [top_k]: what does not depend on the engine *)

Lemma top_k_holding (e : Engine) (k : Z) (rows : frame) :
  0 <= k <= idx_max e ->
  top_k e k (holding rows)
  = Return (firstn (Z.to_nat k) (map slot_of_row (sort e count_desc_le rows))).
Proof.
  intro Hk. unfold top_k, top_k_body, holding. cbn [lf collect bind].
  now rewrite head_length_accepts.
Qed.

Lemma top_k_refused (e : Engine) (k : Z) (self : TrafficAnalyzer) :
  k < 0 \/ idx_max e < k -> top_k e k self = Return [].
Proof.
  intro Hk. unfold top_k, top_k_body.
  destruct (lf self); [|reflexivity]. now rewrite head_length_refuses.
Qed.




(** X3: with [k] at least the number of rows, and no more than the largest
    row index of the engine, [top_k(k)] returns every row of the frame as a
    slot, each once. *)
Theorem top_k_returns_every_row (e : Engine) (k : Z) (rows : frame) :
  Z.of_nat (List.length rows) <= k <= idx_max e ->
  exists out,
    top_k e k (holding rows) = Return out
    /\ Permutation out (map slot_of_row rows).
Proof.
  intro Hk. eexists. split; [apply top_k_holding; lia|].
  rewrite firstn_all2.
  - apply Permutation_map, sort_perm.
  - rewrite length_map, (Permutation_length (sort_perm e count_desc_le rows)). lia.
Qed.

Lemma top_k_returns_every_row_witness :
  Z.of_nat (List.length (map row_of one_window)) <= 3 <= idx_max order_keeping
  /\ exists out,
      top_k order_keeping 3 (holding (map row_of one_window)) = Return out
      /\ Permutation out (map slot_of_row (map row_of one_window)).
Proof.
  assert (H : Z.of_nat (List.length (map row_of one_window)) <= 3 <= idx_max order_keeping)
    by (unfold idx_max; cbn; lia).
  split; [exact H|].
  exact (top_k_returns_every_row order_keeping 3 (map row_of one_window) H).
Defined.

(** ** [min_window_sum] on short frames *)

Lemma sort_of_nil (e : Engine) {A : Type} (le : A -> A -> bool) : sort e le [] = [].
Proof.
  unfold sort. assert (arrange e A [] = []) as ->; [|reflexivity].
  apply Permutation_nil, Permutation_sym, arrange_perm.
Qed.

Lemma candidate_needs_third_row (s : frame) (i : nat) :
  holds (Shifted.contiguous (shifted_at s i)) = true -> (i + 2 < List.length s)%nat.
Proof.
  intro H. apply contiguous_inv in H. destruct H as (t0 & t1 & t2 & _ & _ & E2 & _).
  unfold shifted_at in E2. cbn [Shifted.dt2] in E2.
  apply cell_present in E2. destruct E2 as (x & Hx & _).
  apply nth_error_Some. congruence.
Qed.

(** X4: on a frame of fewer than three rows, whatever the rows hold,
    [min_window_sum] returns the empty dictionary: the last two rows of the
    sorted frame never start a window. *)
Theorem min_window_sum_needs_three_rows (e : Engine) (rows : frame) :
  (List.length rows < 3)%nat ->
  min_window_sum e (holding rows) = Return None.
Proof.
  intro Hlen.
  assert (Hc : candidates e rows = []).
  { rewrite candidates_by_index. unfold candidate_indices.
    rewrite filter_none; [reflexivity|].
    intros i _.
    destruct (holds (Shifted.contiguous (shifted_at (sort e dt_le rows) i))) eqn:E;
      [|reflexivity].
    apply candidate_needs_third_row in E.
    rewrite (Permutation_length (sort_perm e dt_le rows)) in E. lia. }
  unfold min_window_sum, min_window_sum_body, holding. cbn [lf collect bind].
  now rewrite Hc, sort_of_nil.
Qed.

Lemma min_window_sum_needs_three_rows_witness :
  (List.length (map row_of huge_pair) < 3)%nat
  /\ min_window_sum order_keeping (holding (map row_of huge_pair)) = Return None.
Proof.
  assert (H : (List.length (map row_of huge_pair) < 3)%nat) by (cbn; lia).
  split; [exact H|].
  exact (min_window_sum_needs_three_rows order_keeping (map row_of huge_pair) H).
Defined.

(** ** [add_paths]: calls in sequence, and sources that cannot be read *)

(** X5: one call with the lists [ps ++ qs] leaves the analyzer as the call
    with [ps] followed by the call with [qs] does, except when [scan_csv]
    rejects a source of [ps]: then the single call adds nothing of [qs],
    while the second of two calls starts afresh. *)
Theorem add_paths_in_two_calls (ps qs : list source) (self : TrafficAnalyzer) :
  fst (add_paths (ps ++ qs) self)
  = if existsb rejected ps
    then fst (add_paths ps self)
    else fst (add_paths qs (fst (add_paths ps self))).
Proof.
  rewrite !fst_add_paths. revert self.
  induction ps as [|p ps IH]; intro self.
  - reflexivity.
  - destruct p; cbn [app existsb rejected orb add_paths_loop scan_csv fst].
    + reflexivity.
    + apply IH.
    + apply IH.
Qed.

Lemma merge_failed (self : TrafficAnalyzer) (scan : LazyFrame) :
  lf self = Some Raise -> lf (merge self scan) = Some Raise.
Proof. unfold merge. now intros ->. Qed.

Lemma merge_unreadable (self : TrafficAnalyzer) : lf (merge self Raise) = Some Raise.
Proof. unfold merge. destruct (lf self) as [[rows|]|]; reflexivity. Qed.

Lemma add_paths_loop_failed (paths : list source) (self : TrafficAnalyzer) :
  lf self = Some Raise -> lf (fst (add_paths_loop paths self)) = Some Raise.
Proof.
  revert self. induction paths as [|p paths IH]; intros self H; [exact H|].
  destruct p; cbn [add_paths_loop scan_csv fst]; auto using merge_failed.
Qed.

Lemma add_paths_loop_unreadable (paths : list source) (self : TrafficAnalyzer) :
  In Unreadable (accepted_prefix paths) ->
  lf (fst (add_paths_loop paths self)) = Some Raise.
Proof.
  revert self. induction paths as [|p paths IH]; intros self H; [destruct H|].
  destruct p; cbn [accepted_prefix add_paths_loop scan_csv fst] in *.
  - destruct H.
  - apply add_paths_loop_failed, merge_unreadable.
  - destruct H as [H | H]; [discriminate | now apply IH].
Qed.

(** X6: once a source that cannot be read has been merged, the frame fails
    whenever it is collected: every query returns its default, whatever
    readable sources were merged before or are added afterwards, and no later
    [add_paths] repairs it. *)
Theorem unreadable_source_defaults_every_query
        (e : Engine) (k : Z) (paths : list source) (self : TrafficAnalyzer) :
  In Unreadable (accepted_prefix paths) \/ lf self = Some Raise ->
  lf (fst (add_paths paths self)) = Some Raise
  /\ total (fst (add_paths paths self)) = Return 0
  /\ per_day e (fst (add_paths paths self)) = Return []
  /\ top_k e k (fst (add_paths paths self)) = Return []
  /\ min_window_sum e (fst (add_paths paths self)) = Return None.
Proof.
  intro H.
  assert (Hlf : lf (fst (add_paths paths self)) = Some Raise).
  { rewrite fst_add_paths. destruct H as [H | H];
      [now apply add_paths_loop_unreadable | now apply add_paths_loop_failed]. }
  split; [exact Hlf|].
  unfold total, total_body, per_day, per_day_body, top_k, top_k_body,
    min_window_sum, min_window_sum_body.
  rewrite Hlf. cbn [collect bind try_except]. destruct (head_length e k); repeat split.
Qed.

Lemma unreadable_source_defaults_every_query_witness :
  (In Unreadable (accepted_prefix [good_source; Unreadable; good_source])
   \/ lf init = Some Raise)
  /\ total (fst (add_paths [good_source; Unreadable; good_source] init)) = Return 0.
Proof.
  assert (H : In Unreadable (accepted_prefix [good_source; Unreadable; good_source])
              \/ lf init = Some Raise) by (left; right; left; reflexivity).
  split; [exact H|].
  exact (proj1 (proj2 (unreadable_source_defaults_every_query
                         order_keeping 3 [good_source; Unreadable; good_source] init H))).
Defined.

(** ** [total] over merged sources *)

Lemma exact_sum_app (c1 c2 : list (option Z)) :
  exact_sum (c1 ++ c2) = exact_sum c1 + exact_sum c2.
Proof.
  unfold exact_sum. induction c1 as [|[x|] c1 IH]; cbn [app fold_right]; lia.
Qed.

(** X7: adding a readable source to an analyzer that holds rows adds the
    total of the source to the total of the analyzer, in 64-bit
    arithmetic. *)
Theorem total_adds_over_sources (rows1 rows2 : frame) :
  exists t1 t2,
    total (holding rows1) = Return t1
    /\ total (holding rows2) = Return t2
    /\ total (fst (add_paths [Readable rows2] (holding rows1)))
       = Return (Int64.wrap (t1 + t2)).
Proof.
  exists (col_sum (map Row.count rows1)), (col_sum (map Row.count rows2)).
  split; [apply total_rows|]. split; [apply total_rows|].
  change (fst (add_paths [Readable rows2] (holding rows1))) with (holding (rows1 ++ rows2)).
  unfold holding. rewrite total_rows. unfold col_sum.
  now rewrite map_app, exact_sum_app, wrap_add_l, wrap_add_r.
Qed.

(** ** [total] and [per_day] do not depend on the order of the rows *)

Lemma exact_sum_perm (c c' : list (option Z)) :
  Permutation c c' -> exact_sum c = exact_sum c'.
Proof.
  unfold exact_sum. induction 1 as [|x l l' _ IH|x y l|l l' l'' _ IH1 _ IH2];
    cbn [fold_right]; try destruct x; try destruct y; lia.
Qed.

Lemma filter_perm {A : Type} (p : A -> bool) (l l' : list A) :
  Permutation l l' -> Permutation (filter p l) (filter p l').
Proof.
  induction 1 as [|x l l' _ IH|x y l|l l' l'' _ IH1 _ IH2]; cbn [filter].
  - constructor.
  - destruct (p x); [now constructor | exact IH].
  - destruct (p x), (p y); try apply Permutation_refl. apply perm_swap.
  - eapply Permutation_trans; eassumption.
Qed.

Lemma group_exact_perm (rows rows' : list (option string * option Z)) (k : option string) :
  Permutation rows rows' -> group_exact rows k = group_exact rows' k.
Proof.
  intro H. unfold group_exact. apply exact_sum_perm, Permutation_map, filter_perm, H.
Qed.

Lemma distinct_perm (keys keys' : list (option string)) :
  Permutation keys keys' -> Permutation (distinct keys) (distinct keys').
Proof.
  intro H. apply NoDup_Permutation; try apply distinct_NoDup.
  intro k. rewrite !distinct_In. split; apply Permutation_in; [|apply Permutation_sym]; exact H.
Qed.

Lemma group_by_sum_perm (rows rows' : list (option string * option Z)) :
  Permutation rows rows' -> Permutation (group_by_sum rows) (group_by_sum rows').
Proof.
  intro H. rewrite !group_by_sum_unfold.
  rewrite (map_ext (fun k => (k, Int64.wrap (group_exact rows' k)))
                   (fun k => (k, Int64.wrap (group_exact rows k)))).
  - apply Permutation_map, distinct_perm, Permutation_map, H.
  - intro k. now rewrite (group_exact_perm _ _ k H).
Qed.

Lemma group_by_sum_keys (rows : list (option string * option Z)) :
  NoDup (map fst (group_by_sum rows)).
Proof.
  rewrite group_by_sum_unfold, map_map. cbn [fst]. rewrite map_id. apply distinct_NoDup.
Qed.

Lemma same_key_same_row {A B : Type} (f : A -> B) (l : list A) (a b : A) :
  NoDup (map f l) -> In a l -> In b l -> f a = f b -> a = b.
Proof.
  induction l as [|x l IH]; cbn [map]; intros Hn Ha Hb E; [destruct Ha|].
  inversion Hn as [|? ? Hx Hn']; subst.
  destruct Ha as [<- | Ha], Hb as [<- | Hb]; auto.
  - exfalso. apply Hx. rewrite E. now apply in_map.
  - exfalso. apply Hx. rewrite <- E. now apply in_map.
Qed.

Lemma date_key_antisym (a b : option string) :
  nulls_first String.leb a b = true -> nulls_first String.leb b a = true -> a = b.
Proof.
  destruct a as [x|], b as [y|]; simpl; try easy.
  intros H1 H2. f_equal. now apply String.leb_antisym.
Qed.

Lemma date_le_refl (a : option string * Z) : date_le a a = true.
Proof. destruct (date_le_total a a); assumption. Qed.

(** The groups come out of the sort in one order only. *)
Lemma sorted_groups_unique (e e' : Engine) (g g' : list (option string * Z)) :
  NoDup (map fst g) -> Permutation g g' ->
  sort e date_le g = sort e' date_le g'.
Proof.
  intros Hn Hp. apply (sorted_perm_unique date_le).
  - intros a b Ha Hb H1 H2.
    apply (Permutation_in _ (sort_perm e date_le g)) in Ha, Hb.
    apply (same_key_same_row fst g); auto. now apply date_key_antisym.
  - apply date_le_refl.
  - apply sort_sorted; [apply date_le_total | apply date_le_trans].
  - apply sort_sorted; [apply date_le_total | apply date_le_trans].
  - eapply Permutation_trans; [apply sort_perm|].
    eapply Permutation_trans; [exact Hp | apply Permutation_sym, sort_perm].
Qed.

(** X8: [total] and [per_day] depend on the rows of the frame only, not on
    the order in which lines and sources were read, and [per_day] not on the
    order the engine leaves among equal keys either: its groups have distinct
    dates, so the final sort has one outcome. *)
Theorem total_and_per_day_ignore_row_order (e e' : Engine) (rows rows' : frame) :
  Permutation rows rows' ->
  total (holding rows) = total (holding rows')
  /\ per_day e (holding rows) = per_day e' (holding rows').
Proof.
  intro Hp. split.
  - unfold holding. rewrite !total_rows. unfold col_sum.
    now rewrite (exact_sum_perm _ _ (Permutation_map Row.count Hp)).
  - unfold holding. rewrite !per_day_rows. do 2 f_equal.
    apply sorted_groups_unique; [apply group_by_sum_keys|].
    apply group_by_sum_perm, Permutation_map, Hp.
Qed.

Lemma total_and_per_day_ignore_row_order_witness :
  Permutation (map row_of tied_windows) (rev (map row_of tied_windows))
  /\ per_day order_keeping (holding (map row_of tied_windows))
     = per_day order_reversing (holding (rev (map row_of tied_windows))).
Proof.
  assert (H : Permutation (map row_of tied_windows) (rev (map row_of tied_windows)))
    by apply Permutation_rev.
  split; [exact H|].
  exact (proj2 (total_and_per_day_ignore_row_order order_keeping order_reversing _ _ H)).
Defined.

(** ** The least window sum and the engine *)

Lemma by_dt_unique (e e' : Engine) (ds ds' : list Rec.t) :
  NoDup (map Rec.timestamp ds) -> Permutation ds ds' -> by_dt e ds = by_dt e' ds'.
Proof.
  intros Hn Hp. unfold by_dt. apply (sorted_perm_unique dt_le).
  - intros a b Ha Hb H1 H2.
    apply (Permutation_in _ (sort_perm e dt_le _)) in Ha, Hb.
    apply in_map_iff in Ha, Hb.
    destruct Ha as (ra & <- & Ha), Hb as (rb & <- & Hb).
    unfold dt_le in H1, H2. cbn in H1, H2. apply Z.leb_le in H1, H2.
    f_equal. apply (same_key_same_row Rec.timestamp ds); auto. lia.
  - intro a. destruct (dt_le_total a a); assumption.
  - apply sort_sorted; [apply dt_le_total | apply dt_le_trans].
  - apply sort_sorted; [apply dt_le_total | apply dt_le_trans].
  - eapply Permutation_trans; [apply sort_perm|].
    eapply Permutation_trans; [apply Permutation_map, Hp | apply Permutation_sym, sort_perm].
Qed.

Lemma datetimes_perm (ds ds' : list Rec.t) :
  Permutation ds ds' -> datetimes ds -> datetimes ds'.
Proof.
  unfold datetimes. rewrite !Forall_forall. intros Hp H r Hr.
  apply H. eapply Permutation_in; [apply Permutation_sym, Hp | exact Hr].
Qed.

(** X9: when no two records of the dataset share a timestamp, the
    [total_cars] that [min_window_sum] returns depends neither on the engine
    nor on the order in which the records were read: tied windows may be told
    apart by the sort, their sum is one. *)
Theorem min_window_total_is_engine_independent (e e' : Engine) (ds ds' : list Rec.t) :
  NoDup (map Rec.timestamp ds) -> datetimes ds -> Permutation ds ds' ->
  exists w w',
    min_window_sum e (loaded ds) = Return w
    /\ min_window_sum e' (loaded ds') = Return w'
    /\ option_map Window.total_cars w = option_map Window.total_cars w'.
Proof.
  intros Hn Hd Hp.
  pose proof (min_window_sum_loaded e ds Hd) as H.
  pose proof (min_window_sum_loaded e' ds' (datetimes_perm _ _ Hp Hd)) as H'.
  unfold min_window_outcome in H, H'. rewrite <- (by_dt_unique e e' ds ds' Hn Hp) in H'.
  destruct H as [(i & r0 & r1 & r2 & Hq & Hres & Hmin) | [Hnone Hres]];
    destruct H' as [(i' & q0 & q1 & q2 & Hq' & Hres' & Hmin') | [Hnone' Hres']].
  - eexists. eexists. split; [exact Hres|]. split; [exact Hres'|].
    cbn [option_map window_of Window.total_cars].
    specialize (Hmin _ _ _ _ Hq'). specialize (Hmin' _ _ _ _ Hq).
    do 2 f_equal. lia.
  - exfalso. eapply Hnone', Hq.
  - exfalso. eapply Hnone, Hq'.
  - eexists. eexists. split; [exact Hres|]. split; [exact Hres'|]. reflexivity.
Qed.

Lemma min_window_total_is_engine_independent_witness :
  NoDup (map Rec.timestamp tied_windows) /\ datetimes tied_windows
  /\ Permutation tied_windows (rev tied_windows)
  /\ exists w w',
      min_window_sum order_keeping (loaded tied_windows) = Return w
      /\ min_window_sum order_reversing (loaded (rev tied_windows)) = Return w'
      /\ option_map Window.total_cars w = option_map Window.total_cars w'.
Proof.
  assert (Hn : NoDup (map Rec.timestamp tied_windows)).
  { unfold tied_windows. cbn [map rec Rec.timestamp].
    repeat constructor; cbn [In]; vm_compute; intuition discriminate. }
  split; [exact Hn|]. split; [exact tied_windows_datetimes|].
  split; [apply Permutation_rev|].
  exact (min_window_total_is_engine_independent order_keeping order_reversing
           tied_windows (rev tied_windows) Hn tied_windows_datetimes
           (Permutation_rev tied_windows)).
Defined.

(** With a repeated timestamp the sorted frame itself depends on the engine,
    and so does the least sum: 5 or 7 cars start the only window. *)
Example repeated_start_depends_on_engine :
  min_window_sum order_keeping (loaded repeated_start)
  = Return (Some (window_of (rec at_0500 7) (rec (at_0500 + Calendar.half_hour) 1)
                            (rec (at_0500 + 2 * Calendar.half_hour) 1) 9))
  /\ min_window_sum order_reversing (loaded repeated_start)
     = Return (Some (window_of (rec at_0500 5) (rec (at_0500 + Calendar.half_hour) 1)
                               (rec (at_0500 + 2 * Calendar.half_hour) 1) 7)).
Proof. split; vm_compute; reflexivity. Qed.

(** ** Windows and repeated timestamps *)

Lemma half_hour_positive : 0 < Calendar.half_hour.
Proof. reflexivity. Qed.

(** The middle timestamp of a qualifying window occurs once in the sorted
    frame: the rows before the window are not later than its first row, the
    rows after it not earlier than its last. *)
Lemma window_middle_once (s : frame) (i : nat) (r0 r1 r2 : Rec.t) :
  StronglySorted (fun a b => dt_le a b = true) s ->
  qualifying s i r0 r1 r2 ->
  List.length (filter (has_dt (Rec.timestamp r1)) s) = 1%nat.
Proof.
  intros Hs (N0 & N1 & N2 & S1 & S2). pose proof half_hour_positive as Hh.
  destruct (nth_error_split _ _ N1) as (l1 & l2 & Hsplit & Hlen).
  assert (H1 : filter (has_dt (Rec.timestamp r1)) l1 = []).
  { apply filter_none. intros y Hy.
    destruct (In_nth_error _ _ Hy) as (j & Hj).
    assert (Hjlt : (j < List.length l1)%nat) by (apply nth_error_Some; congruence).
    assert (Hsj : nth_error s j = Some y) by (rewrite Hsplit, nth_error_app1; assumption).
    assert (Hle : dt_le y (row_of r0) = true).
    { destruct (Nat.eq_dec j i) as [-> | Hne].
      - assert (y = row_of r0) by congruence. subst y.
        destruct (dt_le_total (row_of r0) (row_of r0)); assumption.
      - apply (sorted_nth_error _ _ Hs j i); [lia | assumption | assumption]. }
    unfold dt_le, has_dt in *. cbn in Hle. destruct (Row.dt y) as [u|]; [|reflexivity].
    cbn in Hle. apply Z.leb_le in Hle. apply Z.eqb_neq. lia. }
  assert (H2 : filter (has_dt (Rec.timestamp r1)) l2 = []).
  { apply filter_none. intros y Hy.
    destruct (In_nth_error _ _ Hy) as (j & Hj).
    assert (Hsj : nth_error s (i + 2 + j) = Some y).
    { rewrite Hsplit, nth_error_app2 by lia.
      replace (i + 2 + j - List.length l1)%nat with (S j) by lia. exact Hj. }
    assert (Hle : dt_le (row_of r2) y = true).
    { destruct j as [|j].
      - rewrite Nat.add_0_r in Hsj. assert (y = row_of r2) by congruence. subst y.
        destruct (dt_le_total (row_of r2) (row_of r2)); assumption.
      - apply (sorted_nth_error _ _ Hs (i + 2) (i + 2 + S j)); [lia | assumption | assumption]. }
    unfold dt_le, has_dt in *. cbn in Hle. destruct (Row.dt y) as [u|]; [|reflexivity].
    apply Z.leb_le in Hle. apply Z.eqb_neq. lia. }
  rewrite Hsplit, filter_app. cbn [filter]. rewrite H1, H2.
  unfold has_dt. cbn. now rewrite Z.eqb_refl.
Qed.

Lemma filter_length_perm {A : Type} (p : A -> bool) (l l' : list A) :
  Permutation l l' -> List.length (filter p l) = List.length (filter p l').
Proof. intro H. apply Permutation_length, filter_perm, H. Qed.

Lemma datetimes_app (ds ds' : list Rec.t) :
  datetimes ds -> datetimes ds' -> datetimes (ds ++ ds').
Proof. unfold datetimes. intros. now apply Forall_app. Qed.

(** X10: a dataset merged twice has no window.  When the same readable
    source is added two times, every timestamp occurs twice, no three rows of
    the sorted frame step by 30 minutes, and [min_window_sum] returns the
    empty dictionary, however many windows the source alone has. *)
Theorem min_window_sum_of_source_added_twice (e : Engine) (ds : list Rec.t) :
  datetimes ds ->
  min_window_sum e
    (fst (add_paths [Readable (map row_of ds); Readable (map row_of ds)] init))
  = Return None.
Proof.
  intro Hd.
  change (fst (add_paths [Readable (map row_of ds); Readable (map row_of ds)] init))
    with (holding (map row_of ds ++ map row_of ds)).
  rewrite <- map_app. change (holding (map row_of (ds ++ ds))) with (loaded (ds ++ ds)).
  destruct (min_window_sum_loaded e (ds ++ ds) (datetimes_app _ _ Hd Hd))
    as [(i & r0 & r1 & r2 & Hq & _) | [_ H]]; [exfalso | exact H].
  pose proof (window_middle_once _ _ _ _ _
                (sort_sorted e dt_le dt_le_total dt_le_trans (map row_of (ds ++ ds))) Hq)
    as Hone.
  fold (by_dt e (ds ++ ds)) in Hone. unfold by_dt in Hone.
  rewrite (filter_length_perm _ _ _ (sort_perm e dt_le (map row_of (ds ++ ds)))) in Hone.
  rewrite map_app, filter_app, length_app in Hone. lia.
Qed.

Lemma min_window_sum_of_source_added_twice_witness :
  datetimes one_window
  /\ min_window_sum order_keeping (loaded one_window)
     = Return (Some (window_of (rec at_0500 5) (rec (at_0500 + Calendar.half_hour) 12)
                               (rec (at_0500 + 2 * Calendar.half_hour) 14) 31))
  /\ min_window_sum order_keeping
       (fst (add_paths [Readable (map row_of one_window); Readable (map row_of one_window)]
                       init))
     = Return None.
Proof.
  split; [exact one_window_datetimes|]. split; [vm_compute; reflexivity|].
  exact (min_window_sum_of_source_added_twice order_keeping one_window one_window_datetimes).
Defined.

(** ** [main] *)

Lemma per_day_total_agree (e : Engine) (self : TrafficAnalyzer)
      (days : list DayTotal.t) (t : Z) :
  per_day e self = Return days -> total self = Return t ->
  Int64.wrap (sum_total_cars days) = t.
Proof.
  destruct self as [[[rows|]|]].
  - rewrite per_day_rows, total_rows. intros Hd Ht.
    injection Hd as <-. injection Ht as <-.
    rewrite sum_total_cars_groups.
    rewrite (zsum_perm _ _ (Permutation_map snd (sort_perm e date_le _))).
    now rewrite zsum_group_by_sum, map_map.
  - cbn. intros Hd Ht. injection Hd as <-. now injection Ht as <-.
  - cbn. intros Hd Ht. injection Hd as <-. now injection Ht as <-.
Qed.

Lemma top_k_at_most_k (e : Engine) (k : nat) (self : TrafficAnalyzer)
      (out : list RankedSlot.t) :
  top_k e (Z.of_nat k) self = Return out -> (List.length out <= k)%nat.
Proof.
  destruct (Z_lt_le_dec (idx_max e) (Z.of_nat k)) as [Hbig | Hfit].
  - rewrite top_k_refused by now right. intro H. injection H as <-. cbn. lia.
  - destruct self as [[[rows|]|]].
    + change {| lf := Some (Return rows) |} with (holding rows).
      rewrite top_k_holding by lia. intro H. injection H as <-.
      rewrite Nat2Z.id. apply firstn_le_length.
    + unfold top_k, top_k_body. cbn [lf]. rewrite head_length_accepts by lia.
      cbn. intro H. injection H as <-. cbn. lia.
    + cbn. intro H. injection H as <-. cbn. lia.
Qed.

Lemma top_k_without_rows (e : Engine) (k : Z) (self : TrafficAnalyzer) :
  lf self = None \/ lf self = Some Raise -> top_k e k self = Return [].
Proof.
  unfold top_k, top_k_body.
  intros [-> | ->]; [reflexivity|]. now destruct (head_length e k).
Qed.

Lemma unreadable_in_prefix (paths : list source) :
  rows_of_sources (accepted_prefix paths) = None -> In Unreadable (accepted_prefix paths).
Proof.
  induction paths as [|p paths IH]; cbn [accepted_prefix rows_of_sources]; [discriminate|].
  destruct p; cbn [rows_of_sources]; [discriminate | now left |].
  destruct (rows_of_sources (accepted_prefix paths)); [discriminate|].
  intros _. right. now apply IH.
Qed.

(** X11: [main] always comes to its summary, whatever paths it is given.  In
    the summary the total is the 64-bit sum of the per-day totals and at most
    three slots are listed; when [scan_csv] rejects the first path, or a
    scanned source cannot be read, the summary is the four defaults (0, no
    day, no slot, no window) and not an error. *)
Theorem main_always_reports (e : Engine) (file_paths : list source) :
  exists r,
    main e file_paths = Return r
    /\ Int64.wrap (sum_total_cars (Report.days r)) = Report.total r
    /\ (List.length (Report.top3 r) <= 3)%nat
    /\ (accepted_prefix file_paths = []
        \/ rows_of_sources (accepted_prefix file_paths) = None ->
        r = {| Report.total := 0; Report.days := []; Report.top3 := [];
               Report.min_window := None |}).
Proof.
  unfold main.
  pose proof (snd_add_paths file_paths init) as Hadd.
  pose proof (fst_add_paths file_paths init) as Hfst.
  destruct (add_paths file_paths init) as [ta added]. cbn [fst snd] in Hadd, Hfst.
  subst added. cbn [bind].
  destruct (try_except_returns (total_body ta) 0) as [t Ht].
  destruct (try_except_returns (per_day_body e ta) []) as [days Hd].
  destruct (try_except_returns (top_k_body e 3 ta) []) as [top3 H3].
  destruct (try_except_returns (min_window_sum_body e ta) None) as [w Hw].
  fold (total ta) in Ht. fold (per_day e ta) in Hd. fold (top_k e 3 ta) in H3.
  fold (min_window_sum e ta) in Hw.
  rewrite Ht, Hd, H3, Hw. cbn [bind].
  eexists. split; [reflexivity|]. cbn [Report.days Report.total Report.top3].
  split; [now apply (per_day_total_agree e ta)|].
  split; [now apply (top_k_at_most_k e 3 ta)|].
  intro H.
  assert (Hlf : lf ta = None \/ lf ta = Some Raise).
  { destruct H as [H | H].
    - left. now rewrite Hfst, add_paths_loop_prefix, H.
    - right. rewrite Hfst. now apply add_paths_loop_unreadable, unreadable_in_prefix. }
  pose proof (top_k_without_rows e 3 ta Hlf) as H3'.
  unfold total, total_body, per_day, per_day_body,
    min_window_sum, min_window_sum_body in Ht, Hd, Hw.
  destruct Hlf as [Hlf | Hlf]; rewrite Hlf in Ht, Hd, Hw;
    cbn in Ht, Hd, Hw; congruence.
Qed.
